(** * fedibot-gpt: thread resolution, transcript building, completion
      gateway and reply dispatch

    A shallow embedding of the mention pipeline of the bot
    ([processNotification] and the functions it calls) together with the
    [Config] record of [config.go].

    Conventions of the embedding.
    - A Go [string] is a sequence of bytes; it is modelled by [string]
      (a list of 8-bit [ascii]), so [len] is the byte length and slices are
      byte slices, as in Go.
    - A Go [int] is modelled by [Z]; the only arithmetic the pipeline does
      on it is the running total of [trimStackToMaxChar], whose 64-bit
      two's-complement wrap-around is written out in [int_add].
    - The remote services (status store, attachment download, completion
      endpoint) are handlers over an abstract world state; every function
      that calls them is a state-passing computation that also records the
      calls it made, in order.
    - Pointers that the server always populates ([notif.Status],
      [status.Account], the three rule groups of an interaction policy, the
      elements of [MediaAttachments]) are modelled by values; the optional
      [status.InteractionPolicy] is an [option].  Logging is not modelled. *)

From Stdlib Require Import ZArith List String Ascii Bool Lia.
Import ListNotations.

Local Open Scope string_scope.
Local Open Scope list_scope.
Local Open Scope Z_scope.

(** Go's [+] on strings. *)
Infix "+++" := String.append (right associativity, at level 60).

(** ** Go primitives *)

Definition len (s : string) : Z := Z.of_nat (String.length s).

Definition int_min : Z := - 2 ^ 63.
Definition int_max : Z := 2 ^ 63 - 1.

(** Two's-complement wrap-around of a 64-bit [int]. *)
Definition int_wrap (z : Z) : Z := (z + 2 ^ 63) mod 2 ^ 64 - 2 ^ 63.

Definition int_add (a b : Z) : Z := int_wrap (a + b).

(** [s[:n]] and [s[n:]] for [0 <= n <= len s]. *)
Fixpoint slice_to (s : string) (n : nat) : string :=
  match n, s with
  | O, _ => EmptyString
  | S _, EmptyString => EmptyString
  | S n', String c s' => String c (slice_to s' n')
  end.

Fixpoint slice_from (s : string) (n : nat) : string :=
  match n, s with
  | O, _ => s
  | S _, EmptyString => EmptyString
  | S n', String _ s' => slice_from s' n'
  end.

Definition newline : string := String (ascii_of_nat 10) EmptyString.

(** ** Configuration ([config.go]) *)

Record Config := {
  OpenAIAPIKey : string;
  OpenAIAPIURL : string;
  OpenAIModel : string;
  OpenAIModelExternal : string;
  FediDomain : string;
  ClientKey : string;
  ClientSecret : string;
  AccessToken : string;
  BotAccountName : string;
  MaxChar : Z;
  MaxHistoryCount : Z;
  MaxHistoryChar : Z;
  SystemPrompt : string
}.

(** ** The SDK's model types, reduced to the fields the pipeline reads *)

Module Account.
Record t := mk { Acct : string }.
End Account.

Module Attachment.
Record t := mk { URL : string }.
End Attachment.

Module PolicyRules.
Record t := mk { Always : list string; WithApproval : list string }.
End PolicyRules.

Module InteractionPolicy.
Record t := mk {
  CanFavourite : PolicyRules.t;
  CanReblog : PolicyRules.t;
  CanReply : PolicyRules.t
}.
End InteractionPolicy.

Module Status.
Record t := mk {
  ID : string;
  Content : string;
  Text : string;
  InReplyToID : string;
  Account : Account.t;
  MediaAttachments : list Attachment.t;
  Language : string;
  Visibility : string;
  LocalOnly : bool;
  Sensitive : bool;
  SpoilerText : string;
  InteractionPolicy : option InteractionPolicy.t
}.
End Status.

Module Notification.
Record t := mk { Type_ : string; Status : Status.t }.
End Notification.

(** ** Chat transcript types ([config.go]) *)

Module ImageContent.
Record t := mk { URL : string; Detail : string }.
End ImageContent.

Module ChatContent.
Record t := mk { Type_ : string; Text : string; ImageURL : option ImageContent.t }.
End ChatContent.

Module Message.
Record t := mk { Role : string; ChatContent : list ChatContent.t }.
End Message.

(** ** Character-budget trimming *)

Section Trim.
Variable config : Config.

(** The loop [for i := len(stack) - 1; i >= 0; i--] with [n = i + 1]. *)
Fixpoint trimLoop (stack : list Status.t) (n : nat) (totalChars : Z)
  : list Status.t :=
  match n with
  | O => stack
  | S i =>
      match nth_error stack i with
      | Some s =>
          let totalChars := int_add totalChars (len (Status.Content s)) in
          if totalChars >? MaxHistoryChar config
          then skipn (S i) stack
          else trimLoop stack i totalChars
      | None => stack
      end
  end.

Definition trimStackToMaxChar (stack : list Status.t) : list Status.t :=
  trimLoop stack (List.length stack) 0.
End Trim.

(** ** Library functions the pipeline calls

    [filepath.Ext], [filepath.Base] (Unix separators), [strings.ToLower] and
    [base64.StdEncoding.EncodeToString], written as forward scans. *)

Definition is_slash (c : ascii) : bool := Ascii.eqb c "/".
Definition is_dot (c : ascii) : bool := Ascii.eqb c ".".

(** The suffix that starts at the last dot of the last path element. *)
Fixpoint filepath_Ext_from (path ext : string) : string :=
  match path with
  | EmptyString => ext
  | String c rest =>
      if is_slash c then filepath_Ext_from rest EmptyString
      else if is_dot c then filepath_Ext_from rest path
      else filepath_Ext_from rest ext
  end.

Definition filepath_Ext (path : string) : string :=
  filepath_Ext_from path EmptyString.

Fixpoint strip_trailing_slashes (path : string) : string :=
  match path with
  | EmptyString => EmptyString
  | String c rest =>
      let rest' := strip_trailing_slashes rest in
      if is_slash c && (rest' =? "")%string then EmptyString
      else String c rest'
  end.

Fixpoint last_element_from (path elem : string) : string :=
  match path with
  | EmptyString => elem
  | String c rest =>
      if is_slash c then last_element_from rest rest
      else last_element_from rest elem
  end.

Definition filepath_Base (path : string) : string :=
  if (path =? "")%string then "."
  else
    let path := strip_trailing_slashes path in
    let path := last_element_from path path in
    if (path =? "")%string then "/" else path.

(** On the extensions compared below, [strings.ToLower] agrees with the
    byte-wise mapping of [A]..[Z]: no other rune lowers to one of the
    letters of [.jpg], [.jpeg] or [.png]. *)
Definition lower_ascii (c : ascii) : ascii :=
  let n := nat_of_ascii c in
  if ((65 <=? n) && (n <=? 90))%nat then ascii_of_nat (n + 32) else c.

Fixpoint strings_ToLower (s : string) : string :=
  match s with
  | EmptyString => EmptyString
  | String c rest => String (lower_ascii c) (strings_ToLower rest)
  end.

Definition base64_alphabet : string :=
  "ABCDEFGHIJKLMNOPQRSTUVWXYZabcdefghijklmnopqrstuvwxyz0123456789+/".

Definition base64_digit (n : nat) : ascii :=
  match String.get n base64_alphabet with
  | Some c => c
  | None => "="%char
  end.

Fixpoint base64_EncodeToString (src : string) : string :=
  match src with
  | EmptyString => EmptyString
  | String a EmptyString =>
      let x := nat_of_ascii a in
      String (base64_digit (x / 4))
        (String (base64_digit (x mod 4 * 16)) "==")
  | String a (String b EmptyString) =>
      let x := nat_of_ascii a in
      let y := nat_of_ascii b in
      String (base64_digit (x / 4))
        (String (base64_digit (x mod 4 * 16 + y / 16))
           (String (base64_digit (y mod 16 * 4)) "="))
  | String a (String b (String c rest)) =>
      let x := nat_of_ascii a in
      let y := nat_of_ascii b in
      let z := nat_of_ascii c in
      String (base64_digit (x / 4))
        (String (base64_digit (x mod 4 * 16 + y / 16))
           (String (base64_digit (y mod 16 * 4 + z / 64))
              (String (base64_digit (z mod 64))
                 (base64_EncodeToString rest))))
  end%nat.

Definition apology : string :=
  "ERROR: 与GPT服务通信失败，若问题持续，请联系管理员".


(** ** Remote services *)

(** The parameters of a status-create request.  Every field is a pointer
    in the SDK; [NewStatusCreateParams] leaves them unset. *)
Module StatusCreateParams.
Record t := mk {
  Status : option string;
  InReplyToID : option string;
  ContentType : option string;
  Language : option string;
  Visibility : option string;
  LocalOnly : option bool;
  Sensitive : option bool;
  SpoilerText : option string;
  InteractionPolicyCanFavouriteAlways0 : option string;
  InteractionPolicyCanFavouriteWithApproval0 : option string;
  InteractionPolicyCanReblogAlways0 : option string;
  InteractionPolicyCanReblogWithApproval0 : option string;
  InteractionPolicyCanReplyAlways0 : option string;
  InteractionPolicyCanReplyWithApproval0 : option string
}.
End StatusCreateParams.

(** A decoded JSON value, as [encoding/json] stores it in an
    [interface{}]; an object is given by the entries of its map. *)
#[local] Unset Elimination Schemes.
Inductive json :=
| JNull
| JBool (b : bool)
| JNumber (literal : string)
| JString (s : string)
| JArray (elems : list json)
| JObject (entries : list (string * json)).
#[local] Set Elimination Schemes.

(** [m[key]]: [None] is the nil interface of an absent key. *)
Fixpoint map_index (m : list (string * json)) (key : string) : option json :=
  match m with
  | [] => None
  | (k, v) :: m' => if (k =? key)%string then Some v else map_index m' key
  end.

(** The completion request: endpoint, authorization header and the two
    fields of the marshalled payload. *)
Module Request.
Record t := mk {
  URL : string;
  Authorization : string;
  Model : string;
  Messages : list Message.t
}.
End Request.

(** An HTTP response of the completion endpoint.  [Body] is what
    [json.Unmarshal] makes of the bytes read: [None] when they are not
    valid JSON. *)
Module Response.
Record t := mk { StatusCode : Z; Body : option json }.
End Response.

(** An attachment download: [http.Get] may fail, and so may reading the
    body. *)
Inductive download :=
| GetFailed
| ReadFailed
| Bytes (imgBytes : string).

(** A call to a remote service together with what it answered
    ([None]: the call returned an error). *)
Inductive Event :=
| StatusGetCall (id : string) (resp : option Status.t)
| HttpGetCall (url : string) (resp : download)
| CompletionCall (req : Request.t) (resp : option Response.t)
| StatusCreateCall (params : StatusCreateParams.t) (resp : option Status.t).

Record Remote (W : Type) := {
  StatusGet : string -> W -> option Status.t * W;
  http_Get : string -> W -> download * W;
  openAI_Do : Request.t -> W -> option Response.t * W;
  StatusCreate : StatusCreateParams.t -> W -> option Status.t * W
}.

Arguments StatusGet {W}.
Arguments http_Get {W}.
Arguments openAI_Do {W}.
Arguments StatusCreate {W}.

(** ** Computations: world passing, call trace, panics *)

Inductive outcome (A : Type) :=
| Ret (a : A)
| Panic
| OutOfFuel.

Arguments Ret {A}.
Arguments Panic {A}.
Arguments OutOfFuel {A}.

Definition M (W A : Type) : Type := W -> outcome A * list Event * W.

Definition ret {W A} (a : A) : M W A := fun w => (Ret a, [], w).
Definition panic {W A} : M W A := fun w => (Panic, [], w).
Definition out_of_fuel {W A} : M W A := fun w => (OutOfFuel, [], w).

Definition bind {W A B} (m : M W A) (k : A -> M W B) : M W B :=
  fun w =>
    match m w with
    | (Ret a, t, w1) => let '(o, t', w2) := k a w1 in (o, t ++ t', w2)
    | (Panic, t, w1) => (Panic, t, w1)
    | (OutOfFuel, t, w1) => (OutOfFuel, t, w1)
    end.

Notation "x <- m ;; k" := (bind m (fun x => k))
  (at level 61, m at next level, right associativity).

Fixpoint foldM {W A B} (f : A -> B -> M W A) (l : list B) (a : A) : M W A :=
  match l with
  | [] => ret a
  | b :: l' => a' <- f a b ;; foldM f l' a'
  end.

(** The result, the trace and the final world of a run. *)
Definition result {W A} (r : outcome A * list Event * W) : outcome A := fst (fst r).
Definition trace {W A} (r : outcome A * list Event * W) : list Event := snd (fst r).
Definition world {W A} (r : outcome A * list Event * W) : W := snd r.

(** The requests of the status-create calls of a trace, in order. *)
Fixpoint posted (t : list Event) : list StatusCreateParams.t :=
  match t with
  | [] => []
  | StatusCreateCall params _ :: t' => params :: posted t'
  | _ :: t' => posted t'
  end.

(** The number of status-fetch calls of a trace. *)
Fixpoint fetches (t : list Event) : nat :=
  match t with
  | [] => O
  | StatusGetCall _ _ :: t' => S (fetches t')
  | _ :: t' => fetches t'
  end.

(** ** The pipeline *)

Definition isValidImageAttachment (attachment : Attachment.t) : bool :=
  let validExtensions := [".jpg"; ".jpeg"; ".png"] in
  let ext := strings_ToLower (filepath_Ext (Attachment.URL attachment)) in
  existsb (fun validExt => (ext =? validExt)%string) validExtensions.

(** The notice appended for an attachment that is not a supported image. *)
Definition skippedNotice (attachment : Attachment.t) : string :=
  newline +++ "【系统提示】媒体附件 "
    +++ filepath_Base (Attachment.URL attachment)
    +++ " 被跳过，因为数量可能超出限制或格式不受支持".

(** [for i, status := range stack { reversedStack[len(stack)-1-i] = status }]
    over the slots of [make([]*models.Status, len(stack))]; an unset slot
    is a nil pointer.  The index written is always in range ([list_set]
    leaves the list alone otherwise, where Go would panic). *)
Fixpoint list_set {A} (l : list A) (i : nat) (x : A) : list A :=
  match l, i with
  | [], _ => []
  | _ :: l', O => x :: l'
  | y :: l', S i' => y :: list_set l' i' x
  end.

Fixpoint reverseLoop (rest : list Status.t) (i n : nat)
  (reversedStack : list (option Status.t)) : list (option Status.t) :=
  match rest with
  | [] => reversedStack
  | status :: rest' =>
      reverseLoop rest' (S i) n (list_set reversedStack (n - 1 - i) (Some status))
  end.

Definition reverseStack (stack : list Status.t) : list (option Status.t) :=
  reverseLoop stack 0 (List.length stack) (repeat None (List.length stack)).

(** The visibility, content-warning and interaction-policy part of
    [replyToStatus]: the request built from [status] for the body
    [fullResponse]. *)
Definition NewStatusCreateParams : StatusCreateParams.t :=
  StatusCreateParams.mk None None None None None None None None
    None None None None None None.

Definition first_of (group : list string) : option string :=
  match group with
  | [] => None
  | v :: _ => Some v
  end.

Definition replyParams (status : Status.t) (fullResponse : string)
  : StatusCreateParams.t :=
  let policy (rules : InteractionPolicy.t -> PolicyRules.t)
             (group : PolicyRules.t -> list string) :=
    match Status.InteractionPolicy status with
    | Some p => first_of (group (rules p))
    | None => None
    end in
  let visibility := Status.Visibility status in
  let visibility :=
    if (Status.Visibility status =? "public")%string then "unlisted"
    else visibility in
  let visibility :=
    if ((Status.Visibility status =? "private")
        || (Status.Visibility status =? "mutuals_only"))%string then "direct"
    else visibility in
  {| StatusCreateParams.Status := Some fullResponse;
     StatusCreateParams.InReplyToID := Some (Status.ID status);
     StatusCreateParams.ContentType := Some "text/markdown";
     StatusCreateParams.Language := Some (Status.Language status);
     StatusCreateParams.Visibility := Some visibility;
     StatusCreateParams.LocalOnly := Some (Status.LocalOnly status);
     StatusCreateParams.Sensitive := Some (Status.Sensitive status);
     StatusCreateParams.SpoilerText :=
       if (Status.SpoilerText status =? "")%string
       then StatusCreateParams.SpoilerText NewStatusCreateParams
       else Some ("re: " +++ Status.SpoilerText status);
     StatusCreateParams.InteractionPolicyCanFavouriteAlways0 :=
       policy InteractionPolicy.CanFavourite PolicyRules.Always;
     StatusCreateParams.InteractionPolicyCanFavouriteWithApproval0 :=
       policy InteractionPolicy.CanFavourite PolicyRules.WithApproval;
     StatusCreateParams.InteractionPolicyCanReblogAlways0 :=
       policy InteractionPolicy.CanReblog PolicyRules.Always;
     StatusCreateParams.InteractionPolicyCanReblogWithApproval0 :=
       policy InteractionPolicy.CanReblog PolicyRules.WithApproval;
     StatusCreateParams.InteractionPolicyCanReplyAlways0 :=
       policy InteractionPolicy.CanReply PolicyRules.Always;
     StatusCreateParams.InteractionPolicyCanReplyWithApproval0 :=
       policy InteractionPolicy.CanReply PolicyRules.WithApproval |}.

Section Pipeline.
Context {W : Type}.
Variable remote : Remote W.
Variable config : Config.

#[local] Abbreviation M := (M W).

Definition callStatusGet (id : string) : M (option Status.t) :=
  fun w => let (r, w') := StatusGet remote id w in
           (Ret r, [StatusGetCall id r], w').

Definition callHttpGet (url : string) : M download :=
  fun w => let (r, w') := http_Get remote url w in
           (Ret r, [HttpGetCall url r], w').

Definition callDo (req : Request.t) : M (option Response.t) :=
  fun w => let (r, w') := openAI_Do remote req w in
           (Ret r, [CompletionCall req r], w').

Definition callStatusCreate (params : StatusCreateParams.t)
  : M (option Status.t) :=
  fun w => let (r, w') := StatusCreate remote params w in
           (Ret r, [StatusCreateCall params r], w').

(** *** Thread resolution *)

(** The loop of [buildConversationStack].  Each iteration appends one
    status, so [MaxHistoryCount] iterations always suffice: [fuel] only
    makes the recursion structural. *)
Fixpoint ancestorsLoop (fuel : nat) (stack : list Status.t)
  (currentStatus : Status.t) : M (list Status.t) :=
  if (Z.of_nat (List.length stack) <? MaxHistoryCount config)
     && negb (Status.InReplyToID currentStatus =? "")%string
  then
    match fuel with
    | O => out_of_fuel
    | S fuel' =>
        resp <- callStatusGet (Status.InReplyToID currentStatus) ;;
        match resp with
        | None => ret stack
        | Some payload => ancestorsLoop fuel' (stack ++ [payload]) payload
        end
    end
  else ret stack.

Definition buildConversationStack (status : Status.t) : M (list Status.t) :=
  stack <- ancestorsLoop (Z.to_nat (MaxHistoryCount config)) [status] status ;;
  ret (trimStackToMaxChar config stack).

(** *** Transcript building *)

Definition getBase64Image (url : string) : M string :=
  resp <- callHttpGet url ;;
  match resp with
  | GetFailed => ret ""
  | ReadFailed => ret ""
  | Bytes imgBytes => ret (base64_EncodeToString imgBytes)
  end.

(** The body of the loop over [status.MediaAttachments]. *)
Definition attachmentStep (msg : Message.t) (attachment : Attachment.t)
  : M Message.t :=
  if isValidImageAttachment attachment then
    b64 <- getBase64Image (Attachment.URL attachment) ;;
    let img := "data:image/jpeg;base64," +++ b64 in
    let imgContent :=
      ChatContent.mk "image_url" "" (Some (ImageContent.mk img "")) in
    ret (Message.mk (Message.Role msg) (Message.ChatContent msg ++ [imgContent]))
  else
    match Message.ChatContent msg with
    | [] => panic
    | first :: others =>
        let first :=
          ChatContent.mk (ChatContent.Type_ first)
            (ChatContent.Text first +++ skippedNotice attachment)
            (ChatContent.ImageURL first) in
        ret (Message.mk (Message.Role msg) (first :: others))
    end.

Definition botAcct : string :=
  BotAccountName config +++ "@" +++ FediDomain config.

(** The body of the loop over [reversedStack]. *)
Definition statusStep (chatHistory : list Message.t)
  (slot : option Status.t) : M (list Message.t) :=
  match slot with
  | None => panic
  | Some status =>
      let t := Status.Text status in
      let t := if (t =? "")%string then Status.Content status else t in
      if (t =? "")%string then ret chatHistory
      else
        let statusText := ChatContent.mk "text" t None in
        let msg := Message.mk "user" [statusText] in
        let msg :=
          if (Account.Acct (Status.Account status) =? botAcct)%string
          then Message.mk "assistant" (Message.ChatContent msg)
          else msg in
        msg <- foldM attachmentStep (Status.MediaAttachments status) msg ;;
        ret (chatHistory ++ [msg])
  end.

Definition systemMessage : Message.t :=
  Message.mk "system" [ChatContent.mk "text" (SystemPrompt config) None].

Definition buildChatHistory (stack : list Status.t) : M (list Message.t) :=
  let chatHistory := [systemMessage] in
  let reversedStack := reverseStack stack in
  foldM statusStep reversedStack chatHistory.

(** *** Completion gateway *)

Definition callGPT (chatHistory : list Message.t) : M string :=
  let url := OpenAIAPIURL config +++ "/chat/completions" in
  let req :=
    Request.mk url ("Bearer " +++ OpenAIAPIKey config)
      (OpenAIModel config) chatHistory in
  res <- callDo req ;;
  match res with
  | None => ret apology
  | Some res =>
      let result :=
        match Response.Body res with
        | Some (JObject entries) => entries
        | _ => []
        end in
      match map_index result "choices" with
      | Some (JArray []) => ret apology
      | Some (JArray (JObject choice :: _)) =>
          match map_index choice "message" with
          | Some (JObject message) =>
              match map_index message "content" with
              | Some (JString content) => ret content
              | _ => ret apology
              end
          | _ => ret apology
          end
      | Some (JArray (_ :: _)) => panic
      | _ => ret apology
      end
  end.

(** The start-up probe [pingGPTService], which sends one [Ping] message
    (a bare string in the payload, rendered here as one text part) and
    returns an error or nil. *)
Inductive pingError :=
| TransportError
| Non200 (statusCode : Z).

Definition pingGPTService : M (option pingError) :=
  let url := OpenAIAPIURL config +++ "/chat/completions" in
  let req :=
    Request.mk url ("Bearer " +++ OpenAIAPIKey config) (OpenAIModel config)
      [Message.mk "user" [ChatContent.mk "text" "Ping" None]] in
  res <- callDo req ;;
  match res with
  | None => ret (Some TransportError)
  | Some res =>
      if negb (Response.StatusCode res =? 200)
      then ret (Some (Non200 (Response.StatusCode res)))
      else ret None
  end.

(** *** Reply dispatch *)

(** [fuel] bounds the depth of the recursion, which the source does not. *)
Fixpoint replyToStatus (fuel : nat) (status : Status.t) (response : string)
  : M unit :=
  let mentionAcct := "@" +++ Account.Acct (Status.Account status) in
  let fullResponse := mentionAcct +++ " " +++ response in
  let remaining := "" in
  split <-
    (if len fullResponse >? MaxChar config then
       if MaxChar config <? 0 then panic
       else ret (slice_to fullResponse (Z.to_nat (MaxChar config)),
                 slice_from fullResponse (Z.to_nat (MaxChar config)))
     else ret (fullResponse, remaining)) ;;
  let '(fullResponse, remaining) := split in
  reply <- callStatusCreate (replyParams status fullResponse) ;;
  match reply with
  | None => ret tt
  | Some payload =>
      if (remaining =? "")%string then ret tt
      else
        match fuel with
        | O => out_of_fuel
        | S fuel' => replyToStatus fuel' payload remaining
        end
  end.

(** *** One mention *)

Definition processNotification (fuel : nat) (notif : Notification.t)
  : M unit :=
  stack <- buildConversationStack (Notification.Status notif) ;;
  chatHistory <- buildChatHistory stack ;;
  response <- callGPT chatHistory ;;
  if (response =? "")%string then ret tt
  else replyToStatus fuel (Notification.Status notif) response.
End Pipeline.

(** ** Vocabulary of the properties *)

(** The cumulative content length of a stack. *)
Fixpoint contentChars (stack : list Status.t) : Z :=
  match stack with
  | [] => 0
  | s :: stack' => len (Status.Content s) + contentChars stack'
  end.

(** The statuses the fetch calls of a trace delivered, in order. *)
Fixpoint fetched (t : list Event) : list Status.t :=
  match t with
  | [] => []
  | StatusGetCall _ (Some payload) :: t' => payload :: fetched t'
  | _ :: t' => fetched t'
  end.

(** The displayable text of a status: the plain-text field, falling back
    to the rich content. *)
Definition displayable_text (s : Status.t) : string :=
  if (Status.Text s =? "")%string then Status.Content s else Status.Text s.

Definition has_text (s : Status.t) : bool :=
  negb (displayable_text s =? "")%string.

(** The role of the message of a status: [assistant] for the bot's own
    handle [<bot-name>@<fedi-domain>], [user] otherwise. *)
Definition roleOf (config : Config) (s : Status.t) : string :=
  if (Account.Acct (Status.Account s)
      =? BotAccountName config +++ "@" +++ FediDomain config)%string
  then "assistant" else "user".

(** The mention handle a dispatch call puts in front of its text, with
    the separating space, and the text it composes. *)
Definition mention_prefix (status : Status.t) : string :=
  ("@" +++ Account.Acct (Status.Account status)) +++ " ".

Definition composed (status : Status.t) (text : string) : string :=
  ("@" +++ Account.Acct (Status.Account status)) +++ " " +++ text.



(** The visibility transform: [public] to [unlisted], [private] and
    [mutuals_only] to [direct], anything else unchanged. *)
Definition visibility_transform (v : string) : string :=
  if (v =? "public")%string then "unlisted"
  else if ((v =? "private") || (v =? "mutuals_only"))%string then "direct"
  else v.

Definition option_eqb {A} (eqb : A -> A -> bool) (x y : option A) : bool :=
  match x, y with
  | Some a, Some b => eqb a b
  | None, None => true
  | _, _ => false
  end.

(** [mirrors source params]: the request copies language, local-only and
    sensitivity flags from [source], is markdown, has the transformed
    visibility of [source], the content warning of [source] behind ["re: "]
    (none when [source] has none) and the first entry of each of the six
    interaction-policy groups of [source]. *)
Definition mirrors (source : Status.t) (params : StatusCreateParams.t) : bool :=
  let group (rules : InteractionPolicy.t -> PolicyRules.t)
            (sel : PolicyRules.t -> list string) : option string :=
    match Status.InteractionPolicy source with
    | Some policy => first_of (sel (rules policy))
    | None => None
    end in
  let str := option_eqb String.eqb in
  let flag := option_eqb Bool.eqb in
  str (StatusCreateParams.Language params) (Some (Status.Language source))
  && flag (StatusCreateParams.LocalOnly params) (Some (Status.LocalOnly source))
  && flag (StatusCreateParams.Sensitive params) (Some (Status.Sensitive source))
  && str (StatusCreateParams.ContentType params) (Some "text/markdown")
  && str (StatusCreateParams.Visibility params)
       (Some (visibility_transform (Status.Visibility source)))
  && str (StatusCreateParams.SpoilerText params)
       (if (Status.SpoilerText source =? "")%string then None
        else Some ("re: " +++ Status.SpoilerText source))
  && str (StatusCreateParams.InteractionPolicyCanFavouriteAlways0 params)
       (group InteractionPolicy.CanFavourite PolicyRules.Always)
  && str (StatusCreateParams.InteractionPolicyCanFavouriteWithApproval0 params)
       (group InteractionPolicy.CanFavourite PolicyRules.WithApproval)
  && str (StatusCreateParams.InteractionPolicyCanReblogAlways0 params)
       (group InteractionPolicy.CanReblog PolicyRules.Always)
  && str (StatusCreateParams.InteractionPolicyCanReblogWithApproval0 params)
       (group InteractionPolicy.CanReblog PolicyRules.WithApproval)
  && str (StatusCreateParams.InteractionPolicyCanReplyAlways0 params)
       (group InteractionPolicy.CanReply PolicyRules.Always)
  && str (StatusCreateParams.InteractionPolicyCanReplyWithApproval0 params)
       (group InteractionPolicy.CanReply PolicyRules.WithApproval).

(** A reply chain in which every request mirrors, and is a child of, the
    status its dispatch call was given: the source for the first request,
    the reply the server returned for the previous request afterwards. *)
Inductive MirrorChain : Status.t -> list Event -> Prop :=
| MirrorChain_nil source : MirrorChain source []
| MirrorChain_failed source params :
    mirrors source params = true ->
    StatusCreateParams.InReplyToID params = Some (Status.ID source) ->
    MirrorChain source [StatusCreateCall params None]
| MirrorChain_cons source params payload rest :
    mirrors source params = true ->
    StatusCreateParams.InReplyToID params = Some (Status.ID source) ->
    MirrorChain payload rest ->
    MirrorChain source (StatusCreateCall params (Some payload) :: rest).


(** ** Scenarios

    A small instance of the remote services, to run the pipeline on
    concrete threads.  The world is the number of statuses created so far;
    the status store is a fixed list; a created reply is authored by the
    bot and echoes the request, as the server does. *)

Module Scenario.
Definition bot : Account.t := Account.mk "gptbot".
Definition alice : Account.t := Account.mk "alice@example.social".

Definition base_config : Config :=
  {| OpenAIAPIKey := "key";
     OpenAIAPIURL := "https://api.openai.com/v1";
     OpenAIModel := "gpt-4o-mini";
     OpenAIModelExternal := "gpt-4o-mini";
     FediDomain := "example.social";
     ClientKey := "";
     ClientSecret := "";
     AccessToken := "token";
     BotAccountName := "gptbot";
     MaxChar := 450;
     MaxHistoryCount := 6;
     MaxHistoryChar := 5000;
     SystemPrompt := "You are a helpful bot." |}.

Definition with_limits (maxChar maxHistoryCount maxHistoryChar : Z) : Config :=
  {| OpenAIAPIKey := OpenAIAPIKey base_config;
     OpenAIAPIURL := OpenAIAPIURL base_config;
     OpenAIModel := OpenAIModel base_config;
     OpenAIModelExternal := OpenAIModelExternal base_config;
     FediDomain := FediDomain base_config;
     ClientKey := ClientKey base_config;
     ClientSecret := ClientSecret base_config;
     AccessToken := AccessToken base_config;
     BotAccountName := BotAccountName base_config;
     MaxChar := maxChar;
     MaxHistoryCount := maxHistoryCount;
     MaxHistoryChar := maxHistoryChar;
     SystemPrompt := SystemPrompt base_config |}.

(** A public post without attachments, content warning or policy. *)
Definition post (id content parent : string) (author : Account.t) : Status.t :=
  Status.mk id content "" parent author [] "en" "public" false false "" None.

Definition digit (n : nat) : string := String (ascii_of_nat (48 + n)) "".

Definition created (params : StatusCreateParams.t) (n : nat) : Status.t :=
  let str (o : option string) := match o with Some s => s | None => "" end in
  let flag (o : option bool) := match o with Some b => b | None => false end in
  Status.mk ("reply-" +++ digit n)
    (str (StatusCreateParams.Status params))
    (str (StatusCreateParams.Status params))
    (str (StatusCreateParams.InReplyToID params))
    bot []
    (str (StatusCreateParams.Language params))
    (str (StatusCreateParams.Visibility params))
    (flag (StatusCreateParams.LocalOnly params))
    (flag (StatusCreateParams.Sensitive params))
    (str (StatusCreateParams.SpoilerText params))
    None.

Definition service (store : list Status.t) (image : string -> download)
  (completion : option Response.t) : Remote nat :=
  {| StatusGet id w :=
       (find (fun s => (Status.ID s =? id)%string) store, w);
     http_Get url w := (image url, w);
     openAI_Do req w := (completion, w);
     StatusCreate params w := (Some (created params w), S w) |}.

(** A completion response of the expected shape. *)
Definition completion (statusCode : Z) (content : string) : Response.t :=
  Response.mk statusCode
    (Some (JObject
       [("choices",
         JArray [JObject [("message",
                           JObject [("role", JString "assistant");
                                    ("content", JString content)])]])])).

(** *** Trimming a two-post thread *)
Definition trim_config : Config := with_limits 450 6 10.
Definition mention : Status.t := post "2" "hello bot" "1" alice.
Definition parent : Status.t := post "1" "old post" "" alice.

(** *** A post that alone exceeds the budget *)
Definition long_mention : Status.t := post "7" "hello world" "" alice.
Definition no_service : Remote nat := service [] (fun _ => GetFailed) None.

Definition leaf : Status.t := post "s0" "m0" "s1" alice.

Definition question : Status.t := post "q" "hi" "" (Account.mk "alice").
Definition answer : string := "0123456789abcdefghijklmnop".


(** *** A completion answered with HTTP 500 *)
Definition failing_service : Remote nat :=
  service [] (fun _ => GetFailed) (Some (completion 500 "partial answer")).

(** *** A post with an image that cannot be downloaded *)
Definition picture : Status.t :=
  Status.mk "p" "look" "" "" alice
    [Attachment.mk "https://example.social/media/cat.png"]
    "en" "public" false false "" None.

(** *** A completion with empty content *)
Definition silent_service : Remote nat :=
  service [] (fun _ => GetFailed) (Some (completion 200 "")).
Definition notification : Notification.t := Notification.mk "mention" mention.
End Scenario.

(** The listed deviations of a completion response from the expected
    shape [{choices:[{message:{content: string}}]}]. *)
Definition choices_of (res : Response.t) : option (list json) :=
  match Response.Body res with
  | Some (JObject entries) =>
      match map_index entries "choices" with
      | Some (JArray choices) => Some choices
      | _ => None
      end
  | _ => None
  end.

Definition is_object (v : option json) : bool :=
  match v with
  | Some (JObject _) => true
  | _ => false
  end.

Definition is_string (v : option json) : bool :=
  match v with
  | Some (JString _) => true
  | _ => false
  end.

Definition missing_or_empty_choices (res : Response.t) : bool :=
  match choices_of res with
  | Some (_ :: _) => false
  | _ => true
  end.

Definition missing_message (res : Response.t) : bool :=
  match choices_of res with
  | Some (JObject choice :: _) => negb (is_object (map_index choice "message"))
  | _ => false
  end.

Definition non_string_content (res : Response.t) : bool :=
  match choices_of res with
  | Some (JObject choice :: _) =>
      match map_index choice "message" with
      | Some (JObject message) => negb (is_string (map_index message "content"))
      | _ => false
      end
  | _ => false
  end.
From Stdlib Require DecimalString DecimalPos.

(** ** Configuration loading ([config.go])

    The environment is what [os.Getenv] answers once [godotenv.Load] has
    run: the value of a variable, the empty string when it is not set. *)

(** [strconv.Atoi]: an optional sign, then one or more decimal digits,
    with a value in the [int] range; anything else is an error. *)
Definition digit_of (c : ascii) : option Z :=
  let n := nat_of_ascii c in
  if ((48 <=? n) && (n <=? 57))%nat then Some (Z.of_nat (n - 48)) else None.

Fixpoint digits_value (s : string) (acc : Z) : option Z :=
  match s with
  | EmptyString => Some acc
  | String c rest =>
      match digit_of c with
      | Some d => digits_value rest (acc * 10 + d)
      | None => None
      end
  end.

Definition strconv_Atoi (s : string) : option Z :=
  let '(neg, digits) :=
    match s with
    | String "-" rest => (true, rest)
    | String "+" rest => (false, rest)
    | _ => (false, s)
    end in
  match digits with
  | EmptyString => None
  | _ =>
      match digits_value digits 0 with
      | Some n =>
          let v := if neg then - n else n in
          if (int_min <=? v) && (v <=? int_max) then Some v else None
      | None => None
      end
  end.

Section LoadConfig.
Variable os_Getenv : string -> string.

Definition getEnv (key defaultValue : string) : string :=
  let value := os_Getenv key in
  if (value =? "")%string then defaultValue else value.

Definition getEnvAsInt (key : string) (defaultValue : Z) : Z :=
  let valueStr := getEnv key "" in
  match strconv_Atoi valueStr with
  | Some value => value
  | None => defaultValue
  end.

Definition loadConfig : Config :=
  {| OpenAIAPIKey := getEnv "OPENAI_API_KEY" "";
     OpenAIAPIURL := getEnv "OPENAI_API_URL" "https://api.openai.com/v1";
     OpenAIModel := getEnv "OPENAI_MODEL" "gpt-4o-mini";
     OpenAIModelExternal := getEnv "OPENAI_MODEL_EXTERNAL" "gpt-4o-mini";
     FediDomain := getEnv "FEDI_DOMAIN" "";
     ClientKey := getEnv "CLIENT_KEY" "";
     ClientSecret := getEnv "CLIENT_SECRET" "";
     AccessToken := getEnv "ACCESS_TOKEN" "";
     BotAccountName := getEnv "BOT_ACCOUNT_NAME" "";
     MaxChar := getEnvAsInt "MAX_CHAR" 450;
     MaxHistoryCount := getEnvAsInt "MAX_HISTORY_COUNT" 6;
     MaxHistoryChar := getEnvAsInt "MAX_HISTORY_CHAR" 5000;
     SystemPrompt := getEnv "SYSTEM_PROMPT" "" |}.
End LoadConfig.

(** ** One poll cycle ([processNotifications])

    The notification list and its clearing are two more remote calls.
    They are not part of a mention's trace: the value returned tells
    whether the list was fetched and what the clearing answered. *)

Record Inbox (W : Type) := {
  Notifications : W -> option (list Notification.t) * W;
  ClearNotifications : W -> bool * W
}.

Arguments Notifications {W}.
Arguments ClearNotifications {W}.

Inductive poll :=
| FetchFailed
| Cleared (ok : bool).

Definition is_mention (notif : Notification.t) : bool :=
  (Notification.Type_ notif =? "mention")%string.

Section Poll.
Context {W : Type}.
Variable remote : Remote W.
Variable inbox : Inbox W.
Variable config : Config.

(** The body of the loop over [notifs.Payload]. *)
Definition notificationStep (fuel : nat) (_ : unit) (notif : Notification.t)
  : M W unit :=
  if negb (Notification.Type_ notif =? "mention")%string then ret tt
  else processNotification remote config fuel notif.

Definition processNotifications (fuel : nat) : M W poll :=
  fun w =>
    let (notifs, w1) := Notifications inbox w in
    match notifs with
    | None => (Ret FetchFailed, [], w1)
    | Some payload =>
        (_ <- foldM (notificationStep fuel) payload tt ;;
         fun w2 =>
           let (ok, w3) := ClearNotifications inbox w2 in
           (Ret (Cleared ok), [], w3)) w1
    end.
End Poll.

(** ** Vocabulary of the further properties *)

(** A trace of thread resolution that follows the reply chain from
    [current]: every call fetches the parent of the status added last, a
    failed fetch ends the trace. *)
Inductive FetchChain : Status.t -> list Event -> Prop :=
| FetchChain_stop current : FetchChain current []
| FetchChain_failed current :
    Status.InReplyToID current <> "" ->
    FetchChain current [StatusGetCall (Status.InReplyToID current) None]
| FetchChain_step current payload rest :
    Status.InReplyToID current <> "" ->
    FetchChain payload rest ->
    FetchChain current
      (StatusGetCall (Status.InReplyToID current) (Some payload) :: rest).

(** The last status of a stack that starts with [leaf]. *)
Definition oldest (leaf : Status.t) (ancestors : list Status.t) : Status.t :=
  last ancestors leaf.

(** Whether the last call of a trace is a failed fetch. *)
Definition ends_with_failed_fetch (t : list Event) : bool :=
  match rev t with
  | StatusGetCall _ None :: _ => true
  | _ => false
  end.

(** The attachment downloads of a trace: the URLs requested and what
    came back. *)
Fixpoint requested (t : list Event) : list string :=
  match t with
  | [] => []
  | HttpGetCall url _ :: t' => url :: requested t'
  | _ :: t' => requested t'
  end.

Definition download_event (d : string * download) : Event :=
  HttpGetCall (fst d) (snd d).

(** The image part made of a download, and the message of a status whose
    supported images were downloaded as [downloads]. *)
Definition imagePart (d : download) : ChatContent.t :=
  ChatContent.mk "image_url" ""
    (Some (ImageContent.mk
             ("data:image/jpeg;base64,"
              +++ match d with
                  | Bytes imgBytes => base64_EncodeToString imgBytes
                  | _ => ""
                  end) "")).

Fixpoint notices (attachments : list Attachment.t) : string :=
  match attachments with
  | [] => ""
  | a :: attachments' =>
      if isValidImageAttachment a then notices attachments'
      else skippedNotice a +++ notices attachments'
  end.

Definition supported (s : Status.t) : list Attachment.t :=
  filter isValidImageAttachment (Status.MediaAttachments s).

Definition messageOf (config : Config) (s : Status.t)
  (downloads : list download) : Message.t :=
  Message.mk (roleOf config s)
    (ChatContent.mk "text"
       (displayable_text s +++ notices (Status.MediaAttachments s)) None
     :: map imagePart downloads).

(** [Transcript config statuses t msgs]: [msgs] are the messages of the
    statuses with text, in order, and [t] is made of the downloads of
    their supported images, in order. *)
Inductive Transcript (config : Config)
  : list Status.t -> list Event -> list Message.t -> Prop :=
| Transcript_nil : Transcript config [] [] []
| Transcript_skip s statuses t msgs :
    has_text s = false ->
    Transcript config statuses t msgs ->
    Transcript config (s :: statuses) t msgs
| Transcript_message s statuses downloads t msgs :
    has_text s = true ->
    map fst downloads = map Attachment.URL (supported s) ->
    Transcript config statuses t msgs ->
    Transcript config (s :: statuses)
      (map download_event downloads ++ t)
      (messageOf config s (map snd downloads) :: msgs).

(** The text of the first choice of a response of the expected shape. *)
Definition content_of (res : Response.t) : option string :=
  match choices_of res with
  | Some (JObject choice :: _) =>
      match map_index choice "message" with
      | Some (JObject message) =>
          match map_index message "content" with
          | Some (JString content) => Some content
          | _ => None
          end
      | _ => None
      end
  | _ => None
  end.

(** The body of the first segment of a dispatch. *)
Definition first_segment (config : Config) (status : Status.t)
  (response : string) : string :=
  if len (composed status response) >? MaxChar config
  then slice_to (composed status response) (Z.to_nat (MaxChar config))
  else composed status response.

(** Two configurations that agree on every field but
    [OpenAIModelExternal], [ClientKey], [ClientSecret] and [AccessToken]. *)
Definition same_pipeline_config (c c' : Config) : Prop :=
  OpenAIAPIKey c = OpenAIAPIKey c'
  /\ OpenAIAPIURL c = OpenAIAPIURL c'
  /\ OpenAIModel c = OpenAIModel c'
  /\ FediDomain c = FediDomain c'
  /\ BotAccountName c = BotAccountName c'
  /\ MaxChar c = MaxChar c'
  /\ MaxHistoryCount c = MaxHistoryCount c'
  /\ MaxHistoryChar c = MaxHistoryChar c'
  /\ SystemPrompt c = SystemPrompt c'.

(** The completion requests of a trace, in order. *)
Fixpoint completions (t : list Event) : list Request.t :=
  match t with
  | [] => []
  | CompletionCall req _ :: t' => req :: completions t'
  | _ :: t' => completions t'
  end.

(** The inbox with the notifications that are not mentions removed. *)
Definition only_mentions {W} (inbox : Inbox W) : Inbox W :=
  {| Notifications w :=
       let (notifs, w') := Notifications inbox w in
       (option_map (filter is_mention) notifs, w');
     ClearNotifications := ClearNotifications inbox |}.

(** The decimal numeral of an integer, as [strconv.Itoa] writes it. *)
Definition decimal (n : Z) : string :=
  DecimalString.NilZero.string_of_int (Z.to_int n).

(** An environment that sets the three limits and nothing else. *)
Definition limits_env (key : string) : string :=
  if (key =? "MAX_CHAR")%string then "0"
  else if (key =? "MAX_HISTORY_COUNT")%string then "-3"
  else if (key =? "MAX_HISTORY_CHAR")%string then "12"
  else "".

(** * Properties *)

(** ** Sanity checks of the library models *)

Example base64_Man : base64_EncodeToString "Man" = "TWFu".
Proof. reflexivity. Qed.
Example base64_Ma : base64_EncodeToString "Ma" = "TWE=".
Proof. reflexivity. Qed.
Example base64_M : base64_EncodeToString "M" = "TQ==".
Proof. reflexivity. Qed.
Example ext1 : filepath_Ext "https://h.x/media/a.b/Cat.PNG" = ".PNG".
Proof. reflexivity. Qed.
Example ext2 : filepath_Ext "https://h.x/media/a.b/cat" = "".
Proof. reflexivity. Qed.
Example base1 : filepath_Base "https://h.x/media/a.b/cat.mp4//" = "cat.mp4".
Proof. reflexivity. Qed.
Example base2 : filepath_Base "///" = "/".
Proof. reflexivity. Qed.
Example lower1 : strings_ToLower ".JpEg" = ".jpeg".
Proof. reflexivity. Qed.

(** ** Go primitives *)

Lemma int_wrap_small z : int_min <= z <= int_max -> int_wrap z = z.
Proof.
  unfold int_min, int_max, int_wrap. intros H.
  rewrite Z.mod_small; lia.
Qed.

Lemma len_nonneg s : 0 <= len s.
Proof. unfold len. lia. Qed.

Lemma length_append a b :
  String.length (a +++ b) = (String.length a + String.length b)%nat.
Proof. induction a as [|c a IH]; simpl; [reflexivity | now rewrite IH]. Qed.

Lemma len_append a b : len (a +++ b) = len a + len b.
Proof. unfold len. rewrite length_append. lia. Qed.



Lemma length_slice_from s n :
  String.length (slice_from s n) = (String.length s - n)%nat.
Proof.
  revert s. induction n as [|n IH]; intros [|c s]; simpl; try reflexivity; try lia.
  apply IH.
Qed.

(** ** Character-budget trimming *)

Section TrimFacts.
Variable config : Config.

Lemma contentChars_nonneg stack : 0 <= contentChars stack.
Proof.
  induction stack as [|s stack IH]; simpl; [lia|].
  pose proof (len_nonneg (Status.Content s)). lia.
Qed.

Lemma contentChars_app a b :
  contentChars (a ++ b) = contentChars a + contentChars b.
Proof. induction a as [|s a IH]; simpl; lia. Qed.

Lemma contentChars_skipn_le k stack :
  contentChars (skipn k stack) <= contentChars stack.
Proof.
  rewrite <- (firstn_skipn k stack) at 2. rewrite contentChars_app.
  pose proof (contentChars_nonneg (firstn k stack)). lia.
Qed.

Lemma skipn_nth_error {A} (l : list A) i x :
  nth_error l i = Some x -> skipn i l = x :: skipn (S i) l.
Proof.
  revert l. induction i as [|i IH]; intros [|y l]; simpl; try discriminate.
  - now intros [= ->].
  - intros H. now rewrite (IH l H).
Qed.

(** The state of the scan after the indices [n], [n+1], ... were added:
    either every check passed and the stack is returned whole, or the
    scan stopped at some index [i] and returned the entries after it. *)
Lemma trimLoop_inv stack :
  contentChars stack <= int_max ->
  forall n totalChars,
    (n <= List.length stack)%nat ->
    totalChars = contentChars (skipn n stack) ->
    (trimLoop config stack n totalChars = stack
     /\ (totalChars <= MaxHistoryChar config ->
         contentChars stack <= MaxHistoryChar config)
     /\ ((0 < n)%nat -> contentChars stack <= MaxHistoryChar config))
    \/ (exists i, (i < n)%nat
        /\ trimLoop config stack n totalChars = skipn (S i) stack
        /\ MaxHistoryChar config < contentChars (skipn i stack)
        /\ (totalChars <= MaxHistoryChar config ->
            contentChars (skipn (S i) stack) <= MaxHistoryChar config)).
Proof.
  intros Hfit. induction n as [|i IH]; intros totalChars Hn Htot.
  - left. simpl in *. subst. repeat split; auto. lia.
  - cbn [trimLoop]. destruct (nth_error stack i) as [s|] eqn:Hs.
    2:{ apply nth_error_None in Hs. lia. }
    pose proof (skipn_nth_error _ _ _ Hs) as Hskip.
    assert (Hsum : contentChars (skipn i stack)
                   = totalChars + len (Status.Content s)).
    { rewrite Hskip, Htot. cbn [contentChars]. lia. }
    assert (Hwrap : int_add totalChars (len (Status.Content s))
                    = contentChars (skipn i stack)).
    { unfold int_add. rewrite <- Hsum. apply int_wrap_small.
      pose proof (contentChars_skipn_le i stack).
      pose proof (contentChars_nonneg (skipn i stack)).
      unfold int_min. lia. }
    rewrite Hwrap.
    destruct (contentChars (skipn i stack) >? MaxHistoryChar config) eqn:Hcmp.
    + right. exists i. split; [lia|]. split; [reflexivity|].
      split; [lia|]. now subst totalChars.
    + assert (Hle : contentChars (skipn i stack) <= MaxHistoryChar config) by lia.
      destruct (IH (contentChars (skipn i stack))) as [(E & H1 & H2) | (j & Hj & E & H1 & H2)];
        try lia; try reflexivity.
      * left. split; [exact E|]. split; intros _; auto.
      * right. exists j. split; [lia|]. split; [exact E|].
        split; [exact H1|]. intros _. auto.
Qed.

Lemma trimStackToMaxChar_cases stack :
  contentChars stack <= int_max ->
  (trimStackToMaxChar config stack = stack
   /\ (0 <= MaxHistoryChar config ->
       contentChars stack <= MaxHistoryChar config)
   /\ (stack <> [] -> contentChars stack <= MaxHistoryChar config))
  \/ (exists i, (i < List.length stack)%nat
      /\ trimStackToMaxChar config stack = skipn (S i) stack
      /\ MaxHistoryChar config < contentChars (skipn i stack)
      /\ (0 <= MaxHistoryChar config ->
          contentChars (skipn (S i) stack) <= MaxHistoryChar config)).
Proof.
  intros Hfit. unfold trimStackToMaxChar.
  assert (H0 : 0 = contentChars (skipn (List.length stack) stack))
    by now rewrite skipn_all.
  destruct (trimLoop_inv stack Hfit (List.length stack) 0 (le_n _) H0)
    as [(E & H1 & H2) | (i & Hi & E & H1 & H2)].
  - left. split; [exact E|]. split; [exact H1|].
    intros Hne. apply H2. destruct stack; [congruence | simpl; lia].
  - right. exists i. auto.
Qed.

Lemma trimStackToMaxChar_suffix stack :
  contentChars stack <= int_max ->
  exists k, trimStackToMaxChar config stack = skipn k stack.
Proof.
  intros Hfit.
  destruct (trimStackToMaxChar_cases stack Hfit)
    as [(E & _) | (i & _ & E & _)].
  - exists O. now rewrite E.
  - exists (S i). exact E.
Qed.

(** Within the budget nothing is dropped. *)
Lemma trimStackToMaxChar_within stack :
  contentChars stack <= MaxHistoryChar config ->
  contentChars stack <= int_max ->
  trimStackToMaxChar config stack = stack.
Proof.
  intros Hle Hfit.
  destruct (trimStackToMaxChar_cases stack Hfit)
    as [(E & _) | (i & _ & _ & Hgt & _)].
  - exact E.
  - pose proof (contentChars_skipn_le i stack). lia.
Qed.

(** The result never exceeds the budget. *)
Lemma trimStackToMaxChar_bound stack :
  0 <= MaxHistoryChar config ->
  contentChars stack <= int_max ->
  contentChars (trimStackToMaxChar config stack) <= MaxHistoryChar config.
Proof.
  intros Hpos Hfit.
  destruct (trimStackToMaxChar_cases stack Hfit)
    as [(E & H1 & _) | (i & _ & E & _ & H1)]; rewrite E; auto.
Qed.

(** Over the budget, the slice returned starts after index 0: the
    newest entry is the first to go. *)
Lemma trimStackToMaxChar_over stack :
  MaxHistoryChar config < contentChars stack ->
  contentChars stack <= int_max ->
  exists i, trimStackToMaxChar config stack = skipn (S i) stack.
Proof.
  intros Hgt Hfit.
  destruct (trimStackToMaxChar_cases stack Hfit)
    as [(E & _ & H2) | (i & _ & E & _)].
  - destruct stack as [|s stack]; [exists O; reflexivity|].
    assert (s :: stack <> []) by discriminate. apply H2 in H. lia.
  - exists i. exact E.
Qed.

End TrimFacts.

(** ** Computations *)

Section MonadFacts.
Context {W : Type}.

Lemma bind_Ret {A B} (m : M W A) (k : A -> M W B) w a t w1 :
  m w = (Ret a, t, w1) ->
  bind m k w = (result (k a w1), t ++ trace (k a w1), world (k a w1)).
Proof.
  unfold bind, result, trace, world. intros ->.
  now destruct (k a w1) as [[o t'] w2].
Qed.

Lemma posted_app t1 t2 : posted (t1 ++ t2) = posted t1 ++ posted t2.
Proof.
  induction t1 as [|e t1 IH]; simpl; [reflexivity|].
  destruct e; simpl; now rewrite IH.
Qed.

End MonadFacts.

(** ** Thread resolution *)

Section ResolveFacts.
Context {W : Type}.
Variable remote : Remote W.
Variable config : Config.

(** With enough fuel for the remaining iterations the loop returns the
    stack it was given followed by the statuses it fetched; it stops at
    [MaxHistoryCount] entries and makes no call but fetches. *)
Lemma ancestorsLoop_spec fuel :
  forall stack currentStatus w,
    MaxHistoryCount config <= Z.of_nat fuel + Z.of_nat (List.length stack) ->
    exists t w',
      ancestorsLoop remote config fuel stack currentStatus w
      = (Ret (stack ++ fetched t), t, w')
      /\ posted t = []
      /\ Z.of_nat (List.length (stack ++ fetched t))
         <= Z.max (Z.of_nat (List.length stack)) (MaxHistoryCount config)
      /\ Z.of_nat (fetches t)
         <= Z.max 0 (MaxHistoryCount config - Z.of_nat (List.length stack)).
Proof.
  induction fuel as [|fuel IH]; intros stack cur w Hfuel.
  - cbn [ancestorsLoop].
    destruct (Z.of_nat (List.length stack) <? MaxHistoryCount config) eqn:Hlt;
      [lia|]. cbn [andb].
    exists [], w. rewrite app_nil_r. cbn. repeat split; lia.
  - cbn [ancestorsLoop].
    destruct ((Z.of_nat (List.length stack) <? MaxHistoryCount config)
              && negb (Status.InReplyToID cur =? "")%string) eqn:Hcond.
    2:{ exists [], w. rewrite app_nil_r. cbn. repeat split; lia. }
    apply andb_prop in Hcond. destruct Hcond as [Hlt _].
    apply Z.ltb_lt in Hlt.
    unfold bind, callStatusGet.
    destruct (StatusGet remote (Status.InReplyToID cur) w) as [[payload|] w1].
    + destruct (IH (stack ++ [payload]) payload w1) as (t & w' & E & Hp & Hlen & Hf).
      { rewrite length_app. cbn [List.length]. lia. }
      rewrite E.
      exists (StatusGetCall (Status.InReplyToID cur) (Some payload) :: t), w'.
      cbn [fetched fetches posted app]. rewrite <- app_assoc in *.
      cbn [app] in *. split; [reflexivity|]. split; [exact Hp|].
      rewrite length_app in Hlen, Hf. cbn [List.length] in Hlen, Hf.
      rewrite !length_app in *. cbn [List.length] in *. lia.
    + exists [StatusGetCall (Status.InReplyToID cur) None], w1.
      cbn. rewrite app_nil_r. repeat split; lia.
Qed.

(** Thread resolution always returns: the leaf followed by the fetched
    ancestors, trimmed. *)
Lemma buildConversationStack_spec status w :
  exists t w',
    buildConversationStack remote config status w
    = (Ret (trimStackToMaxChar config (status :: fetched t)), t, w')
    /\ posted t = []
    /\ Z.of_nat (List.length (status :: fetched t))
       <= Z.max 1 (MaxHistoryCount config)
    /\ Z.of_nat (fetches t) <= Z.max 0 (MaxHistoryCount config - 1).
Proof.
  destruct (ancestorsLoop_spec (Z.to_nat (MaxHistoryCount config))
              [status] status w) as (t & w' & E & Hp & Hlen & Hf).
  { cbn [List.length]. lia. }
  exists t, w'. unfold buildConversationStack.
  rewrite (bind_Ret _ _ _ _ _ _ E). cbn [app] in *.
  cbn [ret result trace world fst snd]. rewrite app_nil_r.
  repeat split; auto.
Qed.
End ResolveFacts.

(** ** Transcript building *)

Lemma list_set_repeat {A} (d x : A) k tail :
  list_set (repeat d (S k) ++ tail) k x = repeat d k ++ x :: tail.
Proof.
  induction k as [|k IH]; [reflexivity|].
  change (repeat d (S (S k)) ++ tail) with (d :: (repeat d (S k) ++ tail)).
  cbn [list_set]. now rewrite IH.
Qed.

Lemma reverseLoop_spec rest :
  forall done,
    reverseLoop rest (List.length done) (List.length done + List.length rest)
      (repeat None (List.length rest) ++ map Some (rev done))
    = map Some (rev (done ++ rest)).
Proof.
  induction rest as [|status rest IH]; intros done.
  - cbn. now rewrite app_nil_r.
  - cbn [reverseLoop List.length].
    replace (List.length done + S (List.length rest) - 1 - List.length done)%nat
      with (List.length rest) by lia.
    rewrite list_set_repeat.
    specialize (IH (done ++ [status])).
    rewrite length_app, rev_app_distr, <- app_assoc in IH.
    cbn [List.length rev app map] in IH.
    replace (List.length done + 1)%nat with (S (List.length done)) in IH by lia.
    replace (S (List.length done) + List.length rest)%nat
      with (List.length done + S (List.length rest))%nat in IH by lia.
    exact IH.
Qed.

(** The index loop fills every slot: it computes the reversed stack. *)
Lemma reverseStack_rev stack : reverseStack stack = map Some (rev stack).
Proof.
  unfold reverseStack.
  pose proof (reverseLoop_spec stack []) as H.
  cbn [List.length rev map app Nat.add] in H. now rewrite app_nil_r in H.
Qed.

Section TranscriptFacts.
Context {W : Type}.
Variable remote : Remote W.
Variable config : Config.

Lemma getBase64Image_total url w :
  exists b64 resp w',
    getBase64Image remote url w = (Ret b64, [HttpGetCall url resp], w')
    /\ http_Get remote url w = (resp, w')
    /\ b64 = match resp with
             | Bytes imgBytes => base64_EncodeToString imgBytes
             | _ => ""
             end.
Proof.
  unfold getBase64Image, bind, callHttpGet.
  destruct (http_Get remote url w) as [resp w'].
  exists (match resp with Bytes b => base64_EncodeToString b | _ => "" end),
    resp, w'.
  destruct resp; cbn; auto.
Qed.

(** One attachment: the role is kept and the message keeps its first
    part. *)
Lemma attachmentStep_total msg attachment w :
  Message.ChatContent msg <> [] ->
  exists msg' t w',
    attachmentStep remote msg attachment w = (Ret msg', t, w')
    /\ Message.Role msg' = Message.Role msg
    /\ Message.ChatContent msg' <> []
    /\ posted t = [].
Proof.
  intros Hne. unfold attachmentStep.
  destruct (isValidImageAttachment attachment).
  - destruct (getBase64Image_total (Attachment.URL attachment) w)
      as (b64 & resp & w' & E & _ & _).
    rewrite (bind_Ret _ _ _ _ _ _ E). cbn.
    eexists _, _, _. split; [reflexivity|]. cbn. repeat split.
    intros H. apply app_eq_nil in H. destruct H. discriminate.
  - destruct (Message.ChatContent msg) as [|first others]; [congruence|].
    eexists _, _, _. split; [reflexivity|]. cbn. repeat split. discriminate.
Qed.

Lemma attachments_total attachments :
  forall msg w,
    Message.ChatContent msg <> [] ->
    exists msg' t w',
      foldM (attachmentStep remote) attachments msg w = (Ret msg', t, w')
      /\ Message.Role msg' = Message.Role msg
      /\ Message.ChatContent msg' <> []
      /\ posted t = [].
Proof.
  induction attachments as [|a attachments IH]; intros msg w Hne.
  - exists msg, [], w. cbn. auto.
  - cbn [foldM].
    destruct (attachmentStep_total msg a w Hne) as (m1 & t1 & w1 & E1 & R1 & N1 & P1).
    destruct (IH m1 w1 N1) as (m2 & t2 & w2 & E2 & R2 & N2 & P2).
    rewrite (bind_Ret _ _ _ _ _ _ E1), E2. cbn.
    exists m2, (t1 ++ t2), w2. rewrite posted_app, P1, P2.
    repeat split; auto. congruence.
Qed.

Lemma statusStep_total chatHistory status w :
  exists t w',
    posted t = []
    /\ if has_text status
       then exists msg,
           statusStep remote config chatHistory (Some status) w
           = (Ret (chatHistory ++ [msg]), t, w')
           /\ Message.Role msg = roleOf config status
       else statusStep remote config chatHistory (Some status) w
            = (Ret chatHistory, t, w').
Proof.
  unfold statusStep, has_text, displayable_text, roleOf, botAcct.
  set (t := if (Status.Text status =? "")%string
            then Status.Content status else Status.Text status).
  destruct (t =? "")%string; cbn [negb].
  - exists [], w. auto.
  - match goal with
    | |- context [foldM _ _ ?m] => set (msg0 := m)
    end.
    assert (Hne : Message.ChatContent msg0 <> []).
    { unfold msg0.
      destruct (Account.Acct (Status.Account status) =? _)%string;
        cbn; discriminate. }
    destruct (attachments_total (Status.MediaAttachments status) msg0 w Hne)
      as (m & t1 & w1 & E & R & _ & P).
    exists (t1 ++ []), w1. rewrite app_nil_r. split; [exact P|].
    exists m. rewrite (bind_Ret _ _ _ _ _ _ E). cbn. rewrite app_nil_r.
    split; [reflexivity|]. rewrite R. unfold msg0.
    now destruct (Account.Acct (Status.Account status) =? _)%string.
Qed.

Lemma statuses_total statuses :
  forall chatHistory w,
    exists msgs t w',
      foldM (statusStep remote config) (map Some statuses) chatHistory w
      = (Ret (chatHistory ++ msgs), t, w')
      /\ Forall2 (fun s msg => Message.Role msg = roleOf config s)
           (filter has_text statuses) msgs
      /\ posted t = [].
Proof.
  induction statuses as [|s statuses IH]; intros chatHistory w.
  - exists [], [], w. cbn. rewrite app_nil_r. auto.
  - cbn [map foldM filter].
    destruct (statusStep_total chatHistory s w) as (t1 & w1 & P1 & H).
    destruct (has_text s).
    + destruct H as (msg & E & R).
      destruct (IH (chatHistory ++ [msg]) w1) as (msgs & t2 & w2 & E2 & F & P2).
      rewrite (bind_Ret _ _ _ _ _ _ E), E2. cbn.
      exists (msg :: msgs), (t1 ++ t2), w2.
      rewrite <- app_assoc, posted_app, P1, P2. cbn. auto.
    + destruct (IH chatHistory w1) as (msgs & t2 & w2 & E2 & F & P2).
      rewrite (bind_Ret _ _ _ _ _ _ H), E2. cbn.
      exists msgs, (t1 ++ t2), w2. rewrite posted_app, P1, P2. auto.
Qed.

(** Transcript building always returns: the system message, then one
    message per status with text, oldest first. *)
Lemma buildChatHistory_spec stack w :
  exists msgs t w',
    buildChatHistory remote config stack w
    = (Ret (systemMessage config :: msgs), t, w')
    /\ Forall2 (fun s msg => Message.Role msg = roleOf config s)
         (filter has_text (rev stack)) msgs
    /\ posted t = [].
Proof.
  unfold buildChatHistory. rewrite reverseStack_rev.
  destruct (statuses_total (rev stack) [systemMessage config] w)
    as (msgs & t & w' & E & F & P).
  exists msgs, t, w'. auto.
Qed.
End TranscriptFacts.

(** ** Completion gateway *)

(** Case analysis on the decoded body, along the type assertions of
    [callGPT]; [leaf] closes each case. *)
Ltac gateway_step :=
  match goal with
  | |- context [match Response.Body ?r with _ => _ end] =>
      destruct (Response.Body r)
  | |- context [match ?x with _ => _ end] =>
      match type of x with
      | option json => destruct x
      | json => destruct x
      | list json => destruct x
      end
  end.

Ltac gateway_cases leaf :=
  repeat first [ solve [leaf] | gateway_step; cbv beta iota ].

Section GatewayFacts.
Context {W : Type}.
Variable config : Config.

Lemma callGPT_posts_nothing (remote : Remote W) chatHistory w :
  posted (trace (callGPT remote config chatHistory w)) = [].
Proof.
  unfold callGPT, bind, callDo.
  destruct (openAI_Do remote _ w) as [[res|] w1]; [|reflexivity].
  gateway_cases reflexivity.
Qed.

(** A transport failure yields the apology. *)
Lemma callGPT_transport_failure (remote : Remote W) chatHistory w :
  (forall req, fst (openAI_Do remote req w) = None) ->
  result (callGPT remote config chatHistory w) = Ret apology.
Proof.
  intros H. unfold callGPT, bind, callDo.
  match goal with |- context [openAI_Do remote ?r w] => specialize (H r) end.
  destruct (openAI_Do remote _ w) as [res w1]. cbn in H. now subst res.
Qed.

(** The status code of the response is never consulted: two services
    that answer with the same decoded body give the same result. *)
Lemma callGPT_status_code_irrelevant (remote1 remote2 : Remote W)
      chatHistory w :
  (forall req,
      option_map Response.Body (fst (openAI_Do remote1 req w))
      = option_map Response.Body (fst (openAI_Do remote2 req w))) ->
  result (callGPT remote1 config chatHistory w)
  = result (callGPT remote2 config chatHistory w).
Proof.
  intros H. unfold callGPT, bind, callDo.
  match goal with |- context [openAI_Do remote1 ?r w] => specialize (H r) end.
  destruct (openAI_Do remote1 _ w) as [[res1|] w1];
    destruct (openAI_Do remote2 _ w) as [[res2|] w2];
    cbn in H; try discriminate; [|reflexivity].
  injection H as H. rewrite H.
  gateway_cases reflexivity.
Qed.
End GatewayFacts.

(** ** Reply dispatch *)

Lemma append_assoc (a b c : string) : (a +++ b) +++ c = a +++ b +++ c.
Proof. induction a as [|x a IH]; simpl; [reflexivity | now rewrite IH]. Qed.

Lemma composed_prefix status text :
  composed status text = mention_prefix status +++ text.
Proof. unfold composed, mention_prefix. now rewrite !append_assoc. Qed.



Lemma option_eqb_string_refl (x : option string) :
  option_eqb String.eqb x x = true.
Proof. destruct x; simpl; [apply String.eqb_refl | reflexivity]. Qed.

(** The visibility set by the two tests of [replyToStatus] is the
    transform of the visibility of the status replied to. *)
Lemma replyParams_visibility status body :
  StatusCreateParams.Visibility (replyParams status body)
  = Some (visibility_transform (Status.Visibility status)).
Proof.
  unfold replyParams, visibility_transform. cbn.
  destruct (Status.Visibility status =? "public")%string eqn:E; [|reflexivity].
  apply String.eqb_eq in E. now rewrite E.
Qed.

Lemma replyParams_mirrors status body :
  mirrors status (replyParams status body) = true.
Proof.
  unfold mirrors. rewrite replyParams_visibility. cbn.
  rewrite !String.eqb_refl, !Bool.eqb_reflx.
  destruct (Status.SpoilerText status =? "")%string;
    destruct (Status.InteractionPolicy status) as [policy|]; cbn;
    rewrite ?String.eqb_refl, ?option_eqb_string_refl; reflexivity.
Qed.

Section DispatchFacts.
Context {W : Type}.
Variable remote : Remote W.
Variable config : Config.

(** One call of [replyToStatus], with the recursive call left folded. *)
Lemma replyToStatus_unfold fuel status response w :
  replyToStatus remote config fuel status response w
  = let full := composed status response in
    let n := Z.to_nat (MaxChar config) in
    if len full >? MaxChar config then
      if MaxChar config <? 0 then (Panic, [], w)
      else
        let params := replyParams status (slice_to full n) in
        let (resp, w1) := StatusCreate remote params w in
        match resp with
        | None => (Ret tt, [StatusCreateCall params None], w1)
        | Some payload =>
            if (slice_from full n =? "")%string
            then (Ret tt, [StatusCreateCall params resp], w1)
            else
              match fuel with
              | O => (OutOfFuel, [StatusCreateCall params resp], w1)
              | S fuel' =>
                  let r := replyToStatus remote config fuel' payload
                             (slice_from full n) w1 in
                  (result r, StatusCreateCall params resp :: trace r, world r)
              end
        end
    else
      let params := replyParams status full in
      let (resp, w1) := StatusCreate remote params w in
      (Ret tt, [StatusCreateCall params resp], w1).
Proof.
  destruct fuel as [|fuel]; cbn [replyToStatus];
    unfold bind, ret, panic, out_of_fuel, callStatusCreate, composed;
    cbv beta zeta;
    (destruct (len _ >? MaxChar config);
     [destruct (MaxChar config <? 0); [reflexivity|] |]);
    cbv beta iota zeta;
    destruct (StatusCreate remote _ w) as [[payload|] w1];
    cbv beta iota zeta; try reflexivity;
    try (destruct (slice_from _ _ =? "")%string; cbv beta iota zeta;
         try reflexivity).
  all: cbn [String.eqb]; try reflexivity.
  now destruct (replyToStatus remote config fuel payload _ w1) as [[o t] w2].
Qed.

(** Every request of a dispatch mirrors the status given to the call
    that posted it. *)
Lemma replyToStatus_mirror_chain fuel :
  forall status response w,
    MirrorChain status (trace (replyToStatus remote config fuel status response w)).
Proof.
  induction fuel as [|fuel IH]; intros status response w;
    rewrite replyToStatus_unfold; cbv zeta;
    destruct (len _ >? MaxChar config);
    try destruct (MaxChar config <? 0);
    try (cbn; constructor);
    destruct (StatusCreate remote _ w) as [[payload|] w1];
    try destruct (slice_from _ _ =? "")%string; cbn;
    try (constructor; auto using replyParams_mirrors; constructor).
Qed.

End DispatchFacts.

(** * The claims *)

Import Scenario.

(** ** Thread resolution and trimming *)

(** C1 (fails on the code).  On a leaf-first stack whose cumulative
    content length exceeds [MaxHistoryChar], the claim has the trimming
    drop the oldest entries and keep the newest.  The code keeps the
    oldest and drops the newest: for the two-post thread
    [mention; parent] with a budget of 10 bytes the total is 17, and the
    slice returned is [parent] alone; the triggering mention is gone. *)
Theorem trimStackToMaxChar_drops_the_mention :
  MaxHistoryChar trim_config < contentChars [mention; parent]
  /\ trimStackToMaxChar trim_config [mention; parent] = [parent].
Proof. split; reflexivity. Qed.







(** ** Reply dispatch *)








(** ** Completion gateway *)

(** What holds of the error handling: a transport failure
    ([callGPT_transport_failure]) and each listed deviation of the body
    yield the apology. *)
Lemma callGPT_deviation {W} (remote : Remote W) config chatHistory w res :
  (forall req, fst (openAI_Do remote req w) = Some res) ->
  missing_or_empty_choices res || missing_message res || non_string_content res
  = true ->
  result (callGPT remote config chatHistory w) = Ret apology.
Proof.
  intros Hdo. unfold callGPT, bind, callDo.
  match goal with |- context [openAI_Do remote ?r w] => specialize (Hdo r) end.
  destruct (openAI_Do remote _ w) as [r w1]. cbn in Hdo. subst r.
  unfold missing_or_empty_choices, missing_message, non_string_content,
    choices_of.
  gateway_cases ltac:(cbn; intros; first [reflexivity | discriminate]).
Qed.

(** C5 (fails on the code).  The claim has every response whose HTTP
    status is not 200 answered with the apology.  [callGPT] never reads
    the status code ([callGPT_status_code_irrelevant]), unlike
    [pingGPTService]: a 500 response whose body has the expected shape
    yields the content of that body. *)
Theorem callGPT_http_500_returns_the_content :
  fst (openAI_Do failing_service
         (Request.mk "https://api.openai.com/v1/chat/completions"
            "Bearer key" "gpt-4o-mini" []) 0%nat)
  = Some (completion 500 "partial answer")
  /\ result (callGPT failing_service base_config [] 0%nat) = Ret "partial answer"
  /\ result (callGPT failing_service base_config [] 0%nat) <> Ret apology
  /\ result (pingGPTService failing_service base_config 0%nat)
     = Ret (Some (Non200 500)).
Proof. repeat split; try reflexivity. vm_compute. discriminate. Qed.

(** ** Transcript building *)

(** A supported image always adds a part, whatever the download gave;
    after a failed download the part holds the bare [data:] prefix. *)
Lemma attachmentStep_image {W} (remote : Remote W) msg attachment w :
  isValidImageAttachment attachment = true ->
  exists b64,
    result (attachmentStep remote msg attachment w)
    = Ret (Message.mk (Message.Role msg)
             (Message.ChatContent msg
              ++ [ChatContent.mk "image_url" ""
                    (Some (ImageContent.mk ("data:image/jpeg;base64," +++ b64) ""))]))
    /\ b64 = match fst (http_Get remote (Attachment.URL attachment) w) with
             | Bytes imgBytes => base64_EncodeToString imgBytes
             | _ => ""
             end.
Proof.
  intros Hvalid. unfold attachmentStep. rewrite Hvalid.
  destruct (getBase64Image_total remote (Attachment.URL attachment) w)
    as (b64 & resp & w' & E & Hget & Hb).
  rewrite (bind_Ret _ _ _ _ _ _ E). cbn. exists b64. split; [reflexivity|].
  now rewrite Hget.
Qed.

(** C6 (fails on the code).  The claim has a supported image whose
    download fails leave no content part.  The code appends the part all
    the same, with an empty payload: the message of [picture], whose
    only attachment cannot be fetched, has two parts. *)
Theorem buildChatHistory_keeps_a_failed_image :
  isValidImageAttachment (Attachment.mk "https://example.social/media/cat.png")
  = true
  /\ fst (http_Get no_service "https://example.social/media/cat.png" 0%nat)
     = GetFailed
  /\ result (buildChatHistory no_service base_config [picture] 0%nat)
     = Ret [Message.mk "system"
              [ChatContent.mk "text" "You are a helpful bot." None];
            Message.mk "user"
              [ChatContent.mk "text" "look" None;
               ChatContent.mk "image_url" ""
                 (Some (ImageContent.mk "data:image/jpeg;base64," ""))]].
Proof. repeat split; reflexivity. Qed.

(** C8.  The transcript starts with a message of role [system] that
    carries the configured system prompt, and the number of messages after
    it is the number of history entries whose displayable text is not
    empty. *)
Theorem buildChatHistory_system_then_one_per_text
        {W} (remote : Remote W) (config : Config) stack w :
  exists msgs,
    result (buildChatHistory remote config stack w)
    = Ret (Message.mk "system" [ChatContent.mk "text" (SystemPrompt config) None]
             :: msgs)
    /\ List.length msgs = List.length (filter has_text stack).
Proof.
  destruct (buildChatHistory_spec remote config stack w)
    as (msgs & t & w' & E & F & _).
  exists msgs. rewrite E. split; [reflexivity|].
  apply Forall2_length in F. rewrite <- F, filter_rev. apply length_rev.
Qed.

(** C9.  The message built from a status with displayable text has role
    [assistant] exactly when the author's handle is
    [<bot-name>@<fedi-domain>], and role [user] otherwise. *)
Theorem buildChatHistory_roles
        {W} (remote : Remote W) (config : Config) stack w :
  exists msgs,
    result (buildChatHistory remote config stack w)
    = Ret (Message.mk "system" [ChatContent.mk "text" (SystemPrompt config) None]
             :: msgs)
    /\ Forall2
         (fun status msg =>
            (Message.Role msg = "assistant"
             /\ Account.Acct (Status.Account status)
                = BotAccountName config +++ "@" +++ FediDomain config)
            \/ (Message.Role msg = "user"
                /\ Account.Acct (Status.Account status)
                   <> BotAccountName config +++ "@" +++ FediDomain config))
         (filter has_text (rev stack)) msgs.
Proof.
  destruct (buildChatHistory_spec remote config stack w)
    as (msgs & t & w' & E & F & _).
  exists msgs. rewrite E. split; [reflexivity|].
  eapply Forall2_impl; [|exact F].
  intros status msg ->. unfold roleOf.
  destruct (Account.Acct (Status.Account status) =? _)%string eqn:Heq.
  - left. split; [reflexivity|]. now apply String.eqb_eq.
  - right. split; [reflexivity|]. now apply String.eqb_neq.
Qed.

(** ** One mention *)

(** C10.  When the completion gateway returns the empty string, the
    mention is processed without any status-create call. *)
Theorem processNotification_empty_response
        {W} (remote : Remote W) (config : Config) fuel notif w
        stack t1 w1 chatHistory t2 w2 t3 w3 :
  buildConversationStack remote config (Notification.Status notif) w
  = (Ret stack, t1, w1) ->
  buildChatHistory remote config stack w1 = (Ret chatHistory, t2, w2) ->
  callGPT remote config chatHistory w2 = (Ret "", t3, w3) ->
  result (processNotification remote config fuel notif w) = Ret tt
  /\ posted (trace (processNotification remote config fuel notif w)) = [].
Proof.
  intros E1 E2 E3. unfold processNotification.
  rewrite (bind_Ret _ _ _ _ _ _ E1), (bind_Ret _ _ _ _ _ _ E2),
    (bind_Ret _ _ _ _ _ _ E3).
  cbn. split; [reflexivity|].
  rewrite !posted_app, app_nil_r.
  destruct (buildConversationStack_spec remote config
              (Notification.Status notif) w) as (t & w' & E & P1 & _).
  rewrite E1 in E. injection E as _ <- _.
  destruct (buildChatHistory_spec remote config stack w1)
    as (msgs & t' & w'' & E' & _ & P2).
  rewrite E2 in E'. injection E' as _ <- _.
  pose proof (callGPT_posts_nothing config remote chatHistory w2) as P3.
  rewrite E3 in P3. cbn in P3.
  now rewrite P1, P2, P3.
Qed.

Lemma processNotification_empty_response_witness :
  result (processNotification silent_service base_config 0 notification 0%nat)
  = Ret tt
  /\ posted (trace (processNotification silent_service base_config 0
                      notification 0%nat)) = [].
Proof.
  eapply (processNotification_empty_response silent_service base_config 0
            notification 0%nat); reflexivity.
Defined.

(** * Further properties *)

(** ** Character-budget trimming *)

Lemma contentChars_skipn_mono k i stack :
  (k <= i)%nat ->
  contentChars (skipn i stack) <= contentChars (skipn k stack).
Proof.
  intros Hki. replace i with ((i - k) + k)%nat by lia.
  rewrite <- skipn_skipn. apply contentChars_skipn_le.
Qed.

(** X1.  The trimmed history is the longest run of entries at the old end
    of the stack whose cumulative content length is within the budget:
    it is [stack[k0:]] for the least [k0] such that [stack[k0:]] fits. *)
Theorem trimStackToMaxChar_longest_old_end config stack :
  0 <= MaxHistoryChar config ->
  contentChars stack <= int_max ->
  exists k0,
    trimStackToMaxChar config stack = skipn k0 stack
    /\ contentChars (skipn k0 stack) <= MaxHistoryChar config
    /\ forall k,
        contentChars (skipn k stack) <= MaxHistoryChar config ->
        (k0 <= k)%nat.
Proof.
  intros Hpos Hfit.
  destruct (trimStackToMaxChar_cases config stack Hfit)
    as [(E & H1 & _) | (i & Hi & E & Hgt & H1)].
  - exists O. cbn [skipn]. repeat split; auto. intros; lia.
  - exists (S i). repeat split; auto. intros k Hk.
    destruct (Nat.le_gt_cases k i) as [Hle|]; [|lia].
    pose proof (contentChars_skipn_mono k i stack Hle). lia.
Qed.

Lemma trimStackToMaxChar_longest_old_end_witness :
  exists k0,
    trimStackToMaxChar Scenario.trim_config [Scenario.mention; Scenario.parent]
    = skipn k0 [Scenario.mention; Scenario.parent]
    /\ contentChars (skipn k0 [Scenario.mention; Scenario.parent]) <= 10
    /\ forall k,
        contentChars (skipn k [Scenario.mention; Scenario.parent]) <= 10 ->
        (k0 <= k)%nat.
Proof.
  apply (trimStackToMaxChar_longest_old_end Scenario.trim_config
           [Scenario.mention; Scenario.parent]);
    apply Z.leb_le; vm_compute; reflexivity.
Defined.

(** X2.  Trimming a trimmed history changes nothing. *)
Theorem trimStackToMaxChar_idempotent config stack :
  0 <= MaxHistoryChar config ->
  contentChars stack <= int_max ->
  trimStackToMaxChar config (trimStackToMaxChar config stack)
  = trimStackToMaxChar config stack.
Proof.
  intros Hpos Hfit.
  pose proof (trimStackToMaxChar_bound config stack Hpos Hfit) as Hb.
  apply trimStackToMaxChar_within; [exact Hb|].
  destruct (trimStackToMaxChar_suffix config stack Hfit) as [k ->].
  pose proof (contentChars_skipn_le k stack). lia.
Qed.

Lemma trimStackToMaxChar_idempotent_witness :
  trimStackToMaxChar Scenario.trim_config
    (trimStackToMaxChar Scenario.trim_config [Scenario.mention; Scenario.parent])
  = trimStackToMaxChar Scenario.trim_config [Scenario.mention; Scenario.parent].
Proof.
  apply trimStackToMaxChar_idempotent; apply Z.leb_le; vm_compute; reflexivity.
Defined.

Lemma trimLoop_oversize_oldest config newer oldest_entry :
  MaxHistoryChar config < len (Status.Content oldest_entry) ->
  len (Status.Content oldest_entry) <= int_max ->
  trimStackToMaxChar config (newer ++ [oldest_entry]) = [].
Proof.
  intros Hgt Hfit. unfold trimStackToMaxChar.
  rewrite length_app. cbn [List.length].
  replace (List.length newer + 1)%nat with (S (List.length newer)) by lia.
  cbn [trimLoop].
  rewrite nth_error_app2, Nat.sub_diag by lia. cbn [nth_error].
  unfold int_add. rewrite int_wrap_small.
  2:{ pose proof (len_nonneg (Status.Content oldest_entry)).
      unfold int_min. lia. }
  replace (0 + len (Status.Content oldest_entry) >? MaxHistoryChar config)
    with true by (symmetry; apply Z.gtb_lt; lia).
  apply skipn_all2. rewrite length_app. cbn. lia.
Qed.

(** X3.  The scan starts at the oldest entry: when that entry alone
    exceeds the budget, the whole history is dropped, whatever the newer
    entries are. *)
Theorem trimStackToMaxChar_oversize_oldest config newer oldest_entry :
  MaxHistoryChar config < len (Status.Content oldest_entry) ->
  len (Status.Content oldest_entry) <= int_max ->
  trimStackToMaxChar config (newer ++ [oldest_entry]) = [].
Proof. apply trimLoop_oversize_oldest. Qed.

Lemma trimStackToMaxChar_oversize_oldest_witness :
  trimStackToMaxChar Scenario.trim_config
    ([Scenario.mention] ++ [Scenario.long_mention]) = [].
Proof.
  apply trimStackToMaxChar_oversize_oldest; apply Z.ltb_lt || apply Z.leb_le;
    vm_compute; reflexivity.
Defined.

(** X4.  With a negative budget every history is trimmed to nothing. *)
Theorem trimStackToMaxChar_negative_budget config stack :
  MaxHistoryChar config < 0 ->
  contentChars stack <= int_max ->
  trimStackToMaxChar config stack = [].
Proof.
  intros Hneg Hfit.
  destruct stack as [|a l]; [reflexivity|].
  destruct (@exists_last _ (a :: l)) as (newer & s & E); [discriminate|].
  rewrite E in *.
  apply trimLoop_oversize_oldest.
  - pose proof (len_nonneg (Status.Content s)). lia.
  - rewrite contentChars_app in Hfit. cbn [contentChars] in Hfit.
    pose proof (contentChars_nonneg newer). lia.
Qed.

Lemma trimStackToMaxChar_negative_budget_witness :
  trimStackToMaxChar (Scenario.with_limits 450 6 (-1))
    [Scenario.mention; Scenario.parent] = [].
Proof.
  apply trimStackToMaxChar_negative_budget;
    apply Z.ltb_lt || apply Z.leb_le; vm_compute; reflexivity.
Defined.

(** ** Thread resolution *)

Lemma last_cons {A} (a d : A) l : last (a :: l) d = last l a.
Proof.
  revert a d. induction l as [|b l IH]; intros a d; [reflexivity|].
  change (last (a :: b :: l) d) with (last (b :: l) d).
  now rewrite !IH.
Qed.

Lemma ends_with_failed_fetch_cons id payload t :
  ends_with_failed_fetch (StatusGetCall id (Some payload) :: t)
  = ends_with_failed_fetch t.
Proof.
  unfold ends_with_failed_fetch. cbn [rev].
  destruct (rev t) as [|e r]; [reflexivity|]. reflexivity.
Qed.

Section ResolveMore.
Context {W : Type}.
Variable remote : Remote W.
Variable config : Config.

Lemma ancestorsLoop_chain fuel :
  forall stack currentStatus w,
    FetchChain currentStatus
      (trace (ancestorsLoop remote config fuel stack currentStatus w)).
Proof.
  induction fuel as [|fuel IH]; intros stack cur w; cbn [ancestorsLoop];
    destruct (Z.of_nat (List.length stack) <? MaxHistoryCount config);
    cbn [andb]; try (cbn; constructor);
    destruct (Status.InReplyToID cur =? "")%string eqn:Hid;
    cbn [negb]; try (cbn; constructor).
  apply String.eqb_neq in Hid.
  unfold bind, callStatusGet.
  destruct (StatusGet remote (Status.InReplyToID cur) w) as [[payload|] w1].
  - specialize (IH (stack ++ [payload]) payload w1).
    destruct (ancestorsLoop remote config fuel (stack ++ [payload]) payload w1)
      as [[o t] w2]. cbn in *. now constructor.
  - cbn. now constructor.
Qed.

(** Why the loop stopped: the count is reached, the status added last
    has no parent, or the last fetch failed. *)
Lemma ancestorsLoop_stops fuel :
  forall stack currentStatus w,
    MaxHistoryCount config <= Z.of_nat fuel + Z.of_nat (List.length stack) ->
    let t := trace (ancestorsLoop remote config fuel stack currentStatus w) in
    MaxHistoryCount config <= Z.of_nat (List.length (stack ++ fetched t))
    \/ Status.InReplyToID (last (fetched t) currentStatus) = ""
    \/ ends_with_failed_fetch t = true.
Proof.
  induction fuel as [|fuel IH]; intros stack cur w Hfuel; cbn [ancestorsLoop];
    (destruct (Z.of_nat (List.length stack) <? MaxHistoryCount config) eqn:Hlt;
     cbn [andb];
     [| left; cbn; rewrite app_nil_r; lia ]);
    (destruct (Status.InReplyToID cur =? "")%string eqn:Hid; cbn [negb];
     [ right; left; cbn; now apply String.eqb_eq |]).
  - lia.
  - unfold bind, callStatusGet.
    destruct (StatusGet remote (Status.InReplyToID cur) w) as [[payload|] w1].
    + specialize (IH (stack ++ [payload]) payload w1).
      destruct (ancestorsLoop remote config fuel (stack ++ [payload]) payload w1)
        as [[o t] w2]. cbn [trace fst snd app fetched] in *.
      rewrite length_app in IH. cbn [List.length] in IH.
      destruct IH as [H | [H | H]]; [lia | | |].
      * left. rewrite <- app_assoc in H. exact H.
      * right. left. now rewrite last_cons.
      * right. right. now rewrite ends_with_failed_fetch_cons.
    + right. right. reflexivity.
Qed.
End ResolveMore.

(** X5.  Thread resolution follows the reply chain and nothing else:
    its only remote calls are status fetches, each one asks for the
    parent of the status added last (never for an empty id), and a failed
    fetch is the last call. *)
Theorem buildConversationStack_follows_the_chain
        {W} (remote : Remote W) (config : Config) status w :
  FetchChain status (trace (buildConversationStack remote config status w)).
Proof.
  unfold buildConversationStack, bind.
  pose proof (ancestorsLoop_chain remote config
                (Z.to_nat (MaxHistoryCount config)) [status] status w) as H.
  destruct (ancestorsLoop remote config _ [status] status w) as [[[stack| |] t] w1];
    cbn in *; rewrite ?app_nil_r; exact H.
Qed.

(** X6.  Resolution stops for one of three reasons only: the stack has
    reached [MaxHistoryCount] entries, the oldest status resolved has no
    parent, or the last fetch failed. *)
Theorem buildConversationStack_stops
        {W} (remote : Remote W) (config : Config) status w :
  let t := trace (buildConversationStack remote config status w) in
  MaxHistoryCount config <= Z.of_nat (List.length (status :: fetched t))
  \/ Status.InReplyToID (oldest status (fetched t)) = ""
  \/ ends_with_failed_fetch t = true.
Proof.
  unfold buildConversationStack, bind, oldest.
  pose proof (ancestorsLoop_stops remote config
                (Z.to_nat (MaxHistoryCount config)) [status] status w) as H.
  destruct (ancestorsLoop remote config _ [status] status w) as [[[stack| |] t] w1];
    cbn [trace fst snd ret] in *; rewrite ?app_nil_r;
    apply H; cbn [List.length]; lia.
Qed.

(** ** Transcript building *)

Section TranscriptMore.
Context {W : Type}.
Variable remote : Remote W.
Variable config : Config.

Lemma append_empty_r s : s +++ "" = s.
Proof. induction s as [|c s IH]; cbn; [reflexivity | now rewrite IH]. Qed.

Lemma attachmentStep_supported msg a w :
  isValidImageAttachment a = true ->
  exists resp w',
    attachmentStep remote msg a w
    = (Ret (Message.mk (Message.Role msg)
              (Message.ChatContent msg ++ [imagePart resp])),
       [HttpGetCall (Attachment.URL a) resp], w').
Proof.
  intros Hvalid. unfold attachmentStep. rewrite Hvalid.
  destruct (getBase64Image_total remote (Attachment.URL a) w)
    as (b64 & resp & w' & E & _ & Hb).
  rewrite (bind_Ret _ _ _ _ _ _ E). exists resp, w'.
  cbn [ret result trace world fst snd app]. subst b64.
  now destruct resp.
Qed.

(** The loop over the attachments: unsupported ones add their notice to
    the first part, supported ones are downloaded and add an image part
    each. *)
Lemma attachments_spec attachments :
  forall role first others w,
    exists downloads w',
      foldM (attachmentStep remote) attachments
        (Message.mk role (first :: others)) w
      = (Ret (Message.mk role
                (ChatContent.mk (ChatContent.Type_ first)
                   (ChatContent.Text first +++ notices attachments)
                   (ChatContent.ImageURL first)
                 :: others ++ map imagePart (map snd downloads))),
         map download_event downloads, w')
      /\ map fst downloads
         = map Attachment.URL (filter isValidImageAttachment attachments).
Proof.
  induction attachments as [|a attachments IH]; intros role first others w.
  - exists [], w. cbn. rewrite app_nil_r, append_empty_r.
    destruct first; auto.
  - cbn [foldM filter notices].
    destruct (isValidImageAttachment a) eqn:Hvalid.
    + destruct (attachmentStep_supported (Message.mk role (first :: others))
                  a w Hvalid) as (resp & w1 & E1).
      cbn [Message.Role Message.ChatContent app] in E1.
      destruct (IH role first (others ++ [imagePart resp]) w1)
        as (downloads & w' & E & Hurls).
      exists ((Attachment.URL a, resp) :: downloads), w'.
      split; [|cbn; now rewrite Hurls].
      rewrite (bind_Ret _ _ _ _ _ _ E1), E.
      cbn [result trace world fst snd map app download_event].
      now rewrite <- app_assoc.
    + assert (E1 : attachmentStep remote (Message.mk role (first :: others)) a w
                   = (Ret (Message.mk role
                             (ChatContent.mk (ChatContent.Type_ first)
                                (ChatContent.Text first +++ skippedNotice a)
                                (ChatContent.ImageURL first) :: others)),
                      [], w)).
      { unfold attachmentStep. now rewrite Hvalid. }
      destruct (IH role
                  (ChatContent.mk (ChatContent.Type_ first)
                     (ChatContent.Text first +++ skippedNotice a)
                     (ChatContent.ImageURL first)) others w)
        as (downloads & w' & E & Hurls).
      exists downloads, w'. split; [|exact Hurls].
      rewrite (bind_Ret _ _ _ _ _ _ E1), E.
      cbn [result trace world fst snd app
           ChatContent.Type_ ChatContent.Text ChatContent.ImageURL].
      now rewrite append_assoc.
Qed.

Lemma statusStep_skipped chatHistory s w :
  has_text s = false ->
  statusStep remote config chatHistory (Some s) w = (Ret chatHistory, [], w).
Proof.
  unfold has_text, displayable_text, statusStep. intros H.
  apply negb_false_iff in H. now rewrite H.
Qed.

Lemma statusStep_message chatHistory s w :
  has_text s = true ->
  exists downloads w',
    statusStep remote config chatHistory (Some s) w
    = (Ret (chatHistory ++ [messageOf config s (map snd downloads)]),
       map download_event downloads, w')
    /\ map fst downloads = map Attachment.URL (supported s).
Proof.
  unfold has_text. intros H. apply negb_true_iff in H.
  destruct (attachments_spec (Status.MediaAttachments s) (roleOf config s)
              (ChatContent.mk "text" (displayable_text s) None) [] w)
    as (downloads & w1 & E1 & Hurls).
  exists downloads, w1. split; [|exact Hurls].
  unfold statusStep. fold (displayable_text s). rewrite H.
  replace (if (Account.Acct (Status.Account s) =? botAcct config)%string
           then _ else _)
    with (Message.mk (roleOf config s)
            [ChatContent.mk "text" (displayable_text s) None]).
  2:{ unfold roleOf, botAcct.
      now destruct (Account.Acct (Status.Account s) =? _)%string. }
  rewrite (bind_Ret _ _ _ _ _ _ E1).
  cbn [ret result trace world fst snd app
       ChatContent.Type_ ChatContent.Text ChatContent.ImageURL].
  now rewrite app_nil_r.
Qed.

Lemma statuses_transcript statuses :
  forall chatHistory w,
    exists msgs t w',
      foldM (statusStep remote config) (map Some statuses) chatHistory w
      = (Ret (chatHistory ++ msgs), t, w')
      /\ Transcript config statuses t msgs.
Proof.
  induction statuses as [|s statuses IH]; intros chatHistory w.
  - exists [], [], w. cbn. rewrite app_nil_r. split; [reflexivity|constructor].
  - cbn [map foldM]. destruct (has_text s) eqn:Htext.
    + destruct (statusStep_message chatHistory s w Htext)
        as (downloads & w1 & E1 & Hurls).
      destruct (IH (chatHistory
                      ++ [messageOf config s (map snd downloads)]) w1)
        as (msgs & t & w' & E & T).
      exists (messageOf config s (map snd downloads) :: msgs),
        (map download_event downloads ++ t), w'.
      split; [|now apply Transcript_message].
      rewrite (bind_Ret _ _ _ _ _ _ E1), E.
      cbn [result trace world fst snd]. now rewrite <- app_assoc.
    + destruct (IH chatHistory w) as (msgs & t & w' & E & T).
      exists msgs, t, w'. split; [|now apply Transcript_skip].
      rewrite (bind_Ret _ _ _ _ _ _ (statusStep_skipped chatHistory s w Htext)), E.
      reflexivity.
Qed.

Lemma buildChatHistory_transcript_run stack w :
  exists msgs t w',
    buildChatHistory remote config stack w
    = (Ret (systemMessage config :: msgs), t, w')
    /\ Transcript config (rev stack) t msgs.
Proof.
  unfold buildChatHistory. rewrite reverseStack_rev.
  destruct (statuses_transcript (rev stack) [systemMessage config] w)
    as (msgs & t & w' & E & T).
  exists msgs, t, w'. auto.
Qed.
End TranscriptMore.

Lemma Transcript_requested config statuses t msgs :
  Transcript config statuses t msgs ->
  requested t
  = flat_map (fun s => map Attachment.URL (supported s))
      (filter has_text statuses)
  /\ List.length (requested t) = List.length t.
Proof.
  induction 1 as [|s statuses t msgs Htext _ [IH1 IH2]
                  |s statuses downloads t msgs Htext Hurls _ [IH1 IH2]];
    cbn [filter flat_map]; rewrite ?Htext; cbn [flat_map]; auto.
  rewrite <- Hurls, <- IH1, length_app, <- IH2. clear.
  induction downloads as [|[url d] downloads [IHa IHb]]; cbn;
    [auto | split; [now rewrite IHa | lia]].
Qed.

(** X7.  The transcript is the system message followed, oldest status
    first, by one message per status with displayable text.  Such a
    message has the role of its author, a first text part that holds the
    displayable text followed by one notice per unsupported attachment, and
    then one [image/jpeg] data-URL part per supported attachment, in
    attachment order, made of what its download returned. *)
Theorem buildChatHistory_transcript
        {W} (remote : Remote W) (config : Config) stack w :
  exists msgs,
    result (buildChatHistory remote config stack w)
    = Ret (Message.mk "system"
             [ChatContent.mk "text" (SystemPrompt config) None] :: msgs)
    /\ Transcript config (rev stack)
         (trace (buildChatHistory remote config stack w)) msgs.
Proof.
  destruct (buildChatHistory_transcript_run remote config stack w)
    as (msgs & t & w' & E & T).
  exists msgs. rewrite E. auto.
Qed.

(** X8.  Transcript building downloads exactly the supported image
    attachments of the statuses that have displayable text, oldest status
    first and in attachment order, and makes no other remote call; the
    attachments of a status without text are never fetched. *)
Theorem buildChatHistory_downloads
        {W} (remote : Remote W) (config : Config) stack w :
  requested (trace (buildChatHistory remote config stack w))
  = flat_map (fun s => map Attachment.URL (supported s))
      (filter has_text (rev stack))
  /\ List.length (requested (trace (buildChatHistory remote config stack w)))
     = List.length (trace (buildChatHistory remote config stack w)).
Proof.
  destruct (buildChatHistory_transcript_run remote config stack w)
    as (msgs & t & w' & E & T).
  rewrite E. cbn [trace fst snd]. eapply Transcript_requested. exact T.
Qed.

(** ** Completion gateway *)

(** The case analysis of [gateway_cases], innermost scrutinee first, so
    that the type assertions of [callGPT] and the extractors of the
    vocabulary are split alike. *)
Ltac response_step :=
  match goal with
  | |- context [match Response.Body ?r with _ => _ end] =>
      destruct (Response.Body r)
  | |- context [match ?x with _ => _ end] =>
      is_var x;
      match type of x with
      | option json => destruct x
      | json => destruct x
      | list json => destruct x
      end
  | |- context [match map_index ?m ?k with _ => _ end] =>
      is_var m; destruct (map_index m k)
  end.

Ltac response_cases leaf :=
  repeat first [ solve [leaf] | response_step; cbv beta iota ].

(** X9.  A response whose [choices] array starts with something that is
    not a JSON object (a null, a number, a string, an array) makes the
    unchecked type assertion of [callGPT] panic: no apology is returned. *)
Theorem callGPT_panics_on_non_object_choice
        {W} (remote : Remote W) config chatHistory w res choice others :
  (forall req, fst (openAI_Do remote req w) = Some res) ->
  choices_of res = Some (choice :: others) ->
  is_object (Some choice) = false ->
  result (callGPT remote config chatHistory w) = Panic.
Proof.
  intros Hdo. unfold callGPT, bind, callDo.
  match goal with |- context [openAI_Do remote ?r w] => specialize (Hdo r) end.
  destruct (openAI_Do remote _ w) as [r w1]. cbn in Hdo. subst r.
  unfold choices_of, is_object.
  response_cases ltac:(cbn; intros; first [reflexivity | discriminate | congruence]).
Qed.

Lemma callGPT_panics_on_non_object_choice_witness :
  result (callGPT
            (Scenario.service [] (fun _ => GetFailed)
               (Some (Response.mk 200
                        (Some (JObject [("choices", JArray [JNull])])))))
            Scenario.base_config [] 0%nat) = Panic.
Proof.
  eapply callGPT_panics_on_non_object_choice; [intros req|..]; reflexivity.
Defined.

(** X10.  When the first choice of the decoded body is an object whose
    [message] is an object with a string [content], [callGPT] returns that
    content, whatever the HTTP status code, the other choices and the
    other fields are. *)
Theorem callGPT_returns_the_content
        {W} (remote : Remote W) config chatHistory w res content :
  (forall req, fst (openAI_Do remote req w) = Some res) ->
  content_of res = Some content ->
  result (callGPT remote config chatHistory w) = Ret content.
Proof.
  intros Hdo. unfold callGPT, bind, callDo.
  match goal with |- context [openAI_Do remote ?r w] => specialize (Hdo r) end.
  destruct (openAI_Do remote _ w) as [r w1]. cbn in Hdo. subst r.
  unfold content_of, choices_of.
  response_cases ltac:(cbn; intros; first [discriminate | congruence]).
Qed.

Lemma callGPT_returns_the_content_witness :
  result (callGPT Scenario.failing_service Scenario.base_config [] 0%nat)
  = Ret "partial answer".
Proof.
  eapply callGPT_returns_the_content; [intros req|]; reflexivity.
Defined.



(** ** Reply dispatch *)

Lemma len_composed status response :
  len (composed status response)
  = len (mention_prefix status) + len response.
Proof. now rewrite composed_prefix, len_append. Qed.

Lemma visibility_transform_range v :
  visibility_transform v <> "public"
  /\ visibility_transform v <> "private"
  /\ visibility_transform v <> "mutuals_only".
Proof.
  unfold visibility_transform.
  destruct (v =? "public")%string eqn:E1; [repeat split; discriminate|].
  destruct (v =? "private")%string eqn:E2; [repeat split; discriminate|].
  destruct (v =? "mutuals_only")%string eqn:E3; [repeat split; discriminate|].
  cbn [orb]. apply String.eqb_neq in E1, E2, E3. auto.
Qed.

Section DispatchMore.
Context {W : Type}.
Variable remote : Remote W.
Variable config : Config.

(** Every request of a dispatch is built by the one request builder. *)
Lemma replyToStatus_posted_replyParams fuel :
  forall status response w,
    Forall (fun params => exists s body, params = replyParams s body)
      (posted (trace (replyToStatus remote config fuel status response w))).
Proof.
  induction fuel as [|fuel IH]; intros status response w;
    rewrite replyToStatus_unfold; cbv zeta;
    destruct (len _ >? MaxChar config);
    try destruct (MaxChar config <? 0);
    try (cbn; constructor);
    destruct (StatusCreate remote _ w) as [[payload|] w1];
    try destruct (slice_from _ _ =? "")%string;
    cbn [trace fst snd posted];
    repeat first [ apply IH | constructor | eexists; eexists; reflexivity ].
Qed.

Lemma replyToStatus_first_posted fuel status response w :
  0 <= MaxChar config ->
  exists rest,
    posted (trace (replyToStatus remote config fuel status response w))
    = replyParams status (first_segment config status response) :: rest.
Proof.
  intros Hmax. rewrite replyToStatus_unfold. unfold first_segment. cbv zeta.
  destruct (len _ >? MaxChar config).
  - destruct (MaxChar config <? 0) eqn:E; [lia|].
    destruct (StatusCreate remote _ w) as [[payload|] w1];
      [destruct (slice_from _ _ =? "")%string; [|destruct fuel] |];
      cbn [trace fst snd posted]; eexists; reflexivity.
  - destruct (StatusCreate remote _ w) as [resp w1].
    cbn [trace fst snd posted]. eexists; reflexivity.
Qed.
End DispatchMore.

Lemma replyToStatus_negative_slice
      {W} (remote : Remote W) (config : Config) fuel status response w :
  MaxChar config < 0 ->
  replyToStatus remote config fuel status response w = (Panic, [], w).
Proof.
  intros Hneg. rewrite replyToStatus_unfold. cbv zeta.
  pose proof (len_nonneg (composed status response)).
  replace (len (composed status response) >? MaxChar config) with true
    by (symmetry; apply Z.gtb_lt; lia).
  replace (MaxChar config <? 0) with true by (symmetry; apply Z.ltb_lt; lia).
  reflexivity.
Qed.

(** X12.  With a negative [MaxChar] every dispatch panics on the slice
    [fullResponse[config.MaxChar:]] before anything is posted. *)
Theorem replyToStatus_negative_MaxChar_panics
        {W} (remote : Remote W) (config : Config) fuel status response w :
  MaxChar config < 0 ->
  replyToStatus remote config fuel status response w = (Panic, [], w).
Proof. apply replyToStatus_negative_slice. Qed.

Lemma replyToStatus_negative_MaxChar_panics_witness :
  replyToStatus Scenario.no_service (Scenario.with_limits (-1) 6 5000) 26
    Scenario.question Scenario.answer 0%nat
  = (Panic, [], 0%nat).
Proof.
  apply replyToStatus_negative_MaxChar_panics. apply Z.ltb_lt. reflexivity.
Defined.

(** X13.  When [MaxChar] does not exceed the length of the mention prefix
    of the source and of the replies, and the server accepts every
    request, a dispatch of a non-empty response never finishes: each call
    carries forward at least as much text as it was given, so whatever
    the recursion depth allowed, it is exhausted after that many more
    segments were posted. *)
Theorem replyToStatus_never_finishes
        {W} (remote : Remote W) (config : Config) fuel :
  0 <= MaxChar config ->
  (forall params w0,
      exists payload w1,
        StatusCreate remote params w0 = (Some payload, w1)
        /\ MaxChar config <= len (mention_prefix payload)) ->
  forall status response w,
    MaxChar config <= len (mention_prefix status) ->
    response <> "" ->
    result (replyToStatus remote config fuel status response w) = OutOfFuel
    /\ List.length
         (posted (trace (replyToStatus remote config fuel status response w)))
       = S fuel.
Proof.
  intros Hmax Hserver.
  induction fuel as [|fuel IH]; intros status response w Hsrc Hne;
    rewrite replyToStatus_unfold; cbv zeta;
    (assert (Hlen : (0 < String.length response)%nat)
       by (destruct response; [congruence | cbn; lia]));
    pose proof (len_composed status response) as Hc;
    (assert (Hlong : MaxChar config < len (composed status response))
       by (unfold len in *; lia));
    (replace (len (composed status response) >? MaxChar config) with true
       by (symmetry; apply Z.gtb_lt; lia));
    (replace (MaxChar config <? 0) with false
       by (symmetry; apply Z.ltb_ge; lia));
    (assert (Hrest : slice_from (composed status response)
                       (Z.to_nat (MaxChar config)) <> "")
       by (intros E; apply (f_equal String.length) in E;
           rewrite length_slice_from in E;
           change (String.length "") with O in E;
           unfold len in *; lia));
    destruct (Hserver (replyParams status
                         (slice_to (composed status response)
                            (Z.to_nat (MaxChar config)))) w)
      as (payload & w1 & -> & Hpayload);
    pose proof Hrest as Hrest'; apply String.eqb_neq in Hrest';
    rewrite Hrest'.
  - split; reflexivity.
  - destruct (IH payload _ w1 Hpayload Hrest) as [Hres Hposted].
    cbn [result trace fst snd posted List.length].
    split; [exact Hres | now rewrite Hposted].
Qed.

Lemma replyToStatus_never_finishes_witness :
  result (replyToStatus Scenario.no_service (Scenario.with_limits 0 6 5000) 3
            Scenario.question Scenario.answer 0%nat) = OutOfFuel
  /\ List.length
       (posted (trace (replyToStatus Scenario.no_service
                         (Scenario.with_limits 0 6 5000) 3
                         Scenario.question Scenario.answer 0%nat)))
     = 4%nat.
Proof.
  apply (replyToStatus_never_finishes Scenario.no_service
           (Scenario.with_limits 0 6 5000) 3).
  - apply Z.leb_le. reflexivity.
  - intros params w0. eexists _, _. split; [reflexivity|].
    apply Z.leb_le. reflexivity.
  - apply Z.leb_le. reflexivity.
  - discriminate.
Defined.

(** X14.  No request of a reply chain is ever [public], [private] or
    [mutuals_only]: the visibility sent is [unlisted], [direct], or a
    value of the status replied to other than these three. *)
Theorem replyToStatus_never_public
        {W} (remote : Remote W) (config : Config) fuel status response w :
  Forall (fun params =>
            exists v,
              StatusCreateParams.Visibility params = Some v
              /\ v <> "public" /\ v <> "private" /\ v <> "mutuals_only")
    (posted (trace (replyToStatus remote config fuel status response w))).
Proof.
  eapply Forall_impl;
    [|apply (replyToStatus_posted_replyParams remote config fuel)].
  intros params (s & body & ->).
  exists (visibility_transform (Status.Visibility s)).
  split; [apply replyParams_visibility | apply visibility_transform_range].
Qed.

(** ** One mention *)

Lemma completions_app t1 t2 :
  completions (t1 ++ t2) = completions t1 ++ completions t2.
Proof.
  induction t1 as [|e t1 IH]; cbn; [reflexivity|].
  destruct e; cbn; now rewrite IH.
Qed.

Lemma FetchChain_completions current t :
  FetchChain current t -> completions t = [].
Proof. induction 1; cbn; auto. Qed.

Lemma Transcript_completions config statuses t msgs :
  Transcript config statuses t msgs -> completions t = [].
Proof.
  induction 1 as [| |s statuses downloads t msgs _ _ _ IH]; cbn; auto.
  rewrite completions_app, IH, app_nil_r. clear.
  induction downloads as [|d downloads IHd]; cbn; auto.
Qed.

Lemma MirrorChain_completions source t :
  MirrorChain source t -> completions t = [].
Proof. induction 1; cbn; auto. Qed.

Section MentionMore.
Context {W : Type}.
Variable remote : Remote W.
Variable config : Config.

(** The run of [callGPT]: one completion call, whatever comes back. *)
Lemma callGPT_one_call chatHistory w :
  exists resp,
    trace (callGPT remote config chatHistory w)
    = [CompletionCall
         (Request.mk (OpenAIAPIURL config +++ "/chat/completions")
            ("Bearer " +++ OpenAIAPIKey config) (OpenAIModel config)
            chatHistory) resp].
Proof.
  unfold callGPT, bind, callDo.
  destruct (openAI_Do remote _ w) as [[res|] w1]; [|eexists; reflexivity].
  exists (Some res).
  gateway_cases reflexivity.
Qed.

(** The first three stages of [processNotification], run in sequence. *)
Lemma processNotification_stages fuel notif w :
  exists stack t1 w1 msgs t2 w2,
    buildConversationStack remote config (Notification.Status notif) w
    = (Ret stack, t1, w1)
    /\ buildChatHistory remote config stack w1
       = (Ret (systemMessage config :: msgs), t2, w2)
    /\ posted t1 = [] /\ posted t2 = []
    /\ completions t1 = [] /\ completions t2 = []
    /\ processNotification remote config fuel notif w
       = (let r := callGPT remote config (systemMessage config :: msgs) w2 in
          match result r with
          | Ret response =>
              if (response =? "")%string
              then (Ret tt, t1 ++ t2 ++ trace r, world r)
              else
                let r' := replyToStatus remote config fuel
                            (Notification.Status notif) response (world r) in
                (result r', t1 ++ t2 ++ trace r ++ trace r', world r')
          | Panic => (Panic, t1 ++ t2 ++ trace r, world r)
          | OutOfFuel => (OutOfFuel, t1 ++ t2 ++ trace r, world r)
          end).
Proof.
  destruct (buildConversationStack_spec remote config
              (Notification.Status notif) w) as (t1 & w1 & E1 & P1 & _).
  pose proof (ancestorsLoop_chain remote config
                (Z.to_nat (MaxHistoryCount config))
                [Notification.Status notif] (Notification.Status notif) w) as C1.
  assert (C1' : completions t1 = []).
  { revert E1 C1. unfold buildConversationStack, bind.
    destruct (ancestorsLoop remote config _ _ _ w) as [[[stack| |] t] w0];
      cbn [ret trace fst snd]; intros E C; try discriminate.
    injection E as _ <- _. rewrite completions_app, app_nil_r.
    eapply FetchChain_completions. exact C. }
  destruct (buildChatHistory_transcript_run remote config
              (trimStackToMaxChar config
                 (Notification.Status notif :: fetched t1)) w1)
    as (msgs & t2 & w2 & E2 & T2).
  destruct (buildChatHistory_spec remote config
              (trimStackToMaxChar config
                 (Notification.Status notif :: fetched t1)) w1)
    as (msgs' & t2' & w2' & E2' & _ & P2).
  rewrite E2 in E2'. injection E2' as _ <- _.
  eexists _, t1, w1, msgs, t2, w2.
  split; [exact E1|]. split; [exact E2|].
  split; [exact P1|]. split; [exact P2|]. split; [exact C1'|].
  split; [eapply Transcript_completions; exact T2|].
  unfold processNotification.
  rewrite (bind_Ret _ _ _ _ _ _ E1), (bind_Ret _ _ _ _ _ _ E2).
  cbn [result trace world fst snd]. unfold bind. cbv zeta.
  destruct (callGPT remote config (systemMessage config :: msgs) w2)
    as [[[response| |] t3] w3]; cbn [result trace world fst snd];
    try reflexivity.
  destruct (response =? "")%string.
  - cbn [ret result trace world fst snd]. now rewrite app_nil_r.
  - destruct (replyToStatus remote config fuel (Notification.Status notif)
                response w3) as [[o t4] w4]. reflexivity.
Qed.
End MentionMore.

Lemma processNotification_completions
      {W} (remote : Remote W) (config : Config) fuel notif w :
  exists stack t1 w1 msgs t2 w2,
    buildConversationStack remote config (Notification.Status notif) w
    = (Ret stack, t1, w1)
    /\ buildChatHistory remote config stack w1
       = (Ret (systemMessage config :: msgs), t2, w2)
    /\ completions (trace (processNotification remote config fuel notif w))
       = [Request.mk (OpenAIAPIURL config +++ "/chat/completions")
            ("Bearer " +++ OpenAIAPIKey config) (OpenAIModel config)
            (systemMessage config :: msgs)].
Proof.
  destruct (processNotification_stages remote config fuel notif w)
    as (stack & t1 & w1 & msgs & t2 & w2 & E1 & E2 & _ & _ & C1 & C2 & ->).
  exists stack, t1, w1, msgs, t2, w2.
  split; [exact E1|]. split; [exact E2|]. cbv zeta.
  destruct (callGPT_one_call remote config (systemMessage config :: msgs) w2)
    as (resp & Ht).
  destruct (result (callGPT remote config (systemMessage config :: msgs) w2))
    as [response| |]; cbn [trace fst snd];
    try (rewrite !completions_app, C1, C2, Ht; reflexivity).
  destruct (response =? "")%string; cbn [trace fst snd];
    rewrite !completions_app, C1, C2, Ht; [reflexivity|].
  rewrite (MirrorChain_completions _ _
             (replyToStatus_mirror_chain remote config fuel _ _ _)).
  reflexivity.
Qed.

(** X15.  Every mention costs exactly one completion request, whatever
    the thread, the attachments and the outcome of the reply are; it goes
    to [<base>/chat/completions] with the configured key and the model
    [OpenAIModel], and its transcript starts with the system message. *)
Theorem processNotification_one_completion
        {W} (remote : Remote W) (config : Config) fuel notif w :
  exists msgs,
    completions (trace (processNotification remote config fuel notif w))
    = [Request.mk (OpenAIAPIURL config +++ "/chat/completions")
         ("Bearer " +++ OpenAIAPIKey config) (OpenAIModel config)
         (Message.mk "system"
            [ChatContent.mk "text" (SystemPrompt config) None] :: msgs)].
Proof.
  destruct (processNotification_completions remote config fuel notif w)
    as (stack & t1 & w1 & msgs & t2 & w2 & _ & _ & H).
  exists msgs. exact H.
Qed.

(** X16.  A non-empty completion is answered to the triggering status
    itself, also when trimming removed that status from the history: the
    first request posted is the one built from the triggering status for
    the first segment of the response. *)
Theorem processNotification_replies_to_the_mention
        {W} (remote : Remote W) (config : Config) fuel notif w
        stack t1 w1 chatHistory t2 w2 response t3 w3 :
  buildConversationStack remote config (Notification.Status notif) w
  = (Ret stack, t1, w1) ->
  buildChatHistory remote config stack w1 = (Ret chatHistory, t2, w2) ->
  callGPT remote config chatHistory w2 = (Ret response, t3, w3) ->
  response <> "" ->
  0 <= MaxChar config ->
  exists rest,
    posted (trace (processNotification remote config fuel notif w))
    = replyParams (Notification.Status notif)
        (first_segment config (Notification.Status notif) response) :: rest.
Proof.
  intros E1 E2 E3 Hne Hmax.
  destruct (processNotification_stages remote config fuel notif w)
    as (stack' & t1' & w1' & msgs & t2' & w2' & E1' & E2' & P1 & P2 & _ & _ & ->).
  rewrite E1 in E1'. injection E1' as <- <- <-.
  rewrite E2 in E2'. injection E2' as <- <- <-.
  rewrite E3. cbn [result trace world fst snd].
  apply String.eqb_neq in Hne. rewrite Hne.
  destruct (replyToStatus_first_posted remote config fuel
              (Notification.Status notif) response w3 Hmax) as (rest & Hrest).
  exists rest. cbn [trace fst snd].
  rewrite !posted_app, P1, P2, Hrest.
  pose proof (callGPT_posts_nothing config remote chatHistory w2) as P3.
  rewrite E3 in P3. cbn [trace fst snd] in P3. now rewrite P3.
Qed.

Lemma processNotification_replies_to_the_mention_witness :
  exists rest,
    posted (trace (processNotification Scenario.failing_service
                     Scenario.base_config 0 Scenario.notification 0%nat))
    = replyParams Scenario.mention
        (first_segment Scenario.base_config Scenario.mention "partial answer")
      :: rest.
Proof.
  eapply (processNotification_replies_to_the_mention Scenario.failing_service
            Scenario.base_config 0 Scenario.notification 0%nat);
    try reflexivity.
  - discriminate.
  - apply Z.leb_le. reflexivity.
Defined.

(** X17.  When the completion request cannot be sent, the mention is
    still answered: the author of the triggering status gets the apology
    (its first [MaxChar] bytes when it does not fit). *)
Theorem processNotification_transport_failure_posts_apology
        {W} (remote : Remote W) (config : Config) fuel notif w :
  (forall req w0, fst (openAI_Do remote req w0) = None) ->
  0 <= MaxChar config ->
  exists rest,
    posted (trace (processNotification remote config fuel notif w))
    = replyParams (Notification.Status notif)
        (first_segment config (Notification.Status notif) apology) :: rest.
Proof.
  intros Hdo Hmax.
  destruct (processNotification_stages remote config fuel notif w)
    as (stack & t1 & w1 & msgs & t2 & w2 & _ & _ & P1 & P2 & _ & _ & ->).
  cbv zeta.
  pose proof (callGPT_transport_failure config remote
                (systemMessage config :: msgs) w2 (fun req => Hdo req w2)) as R.
  pose proof (callGPT_posts_nothing config remote
                (systemMessage config :: msgs) w2) as P3.
  rewrite R.
  replace (apology =? "")%string with false by reflexivity.
  destruct (replyToStatus_first_posted remote config fuel
              (Notification.Status notif) apology
              (world (callGPT remote config (systemMessage config :: msgs) w2))
              Hmax) as (rest & Hrest).
  exists rest. cbn [trace fst snd].
  now rewrite !posted_app, P1, P2, P3, Hrest.
Qed.

Lemma processNotification_transport_failure_posts_apology_witness :
  exists rest,
    posted (trace (processNotification Scenario.no_service
                     Scenario.base_config 0 Scenario.notification 0%nat))
    = replyParams Scenario.mention
        (first_segment Scenario.base_config Scenario.mention apology) :: rest.
Proof.
  apply (processNotification_transport_failure_posts_apology
           Scenario.no_service Scenario.base_config 0 Scenario.notification
           0%nat).
  - intros req w0. reflexivity.
  - apply Z.leb_le. reflexivity.
Defined.

(** X18.  A mention that starts a thread and whose content alone exceeds
    [MaxHistoryChar] is trimmed out of its own history: the completion is
    requested with the system message and nothing else. *)
Theorem processNotification_oversize_mention
        {W} (remote : Remote W) (config : Config) fuel notif w :
  Status.InReplyToID (Notification.Status notif) = "" ->
  MaxHistoryChar config < len (Status.Content (Notification.Status notif)) ->
  len (Status.Content (Notification.Status notif)) <= int_max ->
  completions (trace (processNotification remote config fuel notif w))
  = [Request.mk (OpenAIAPIURL config +++ "/chat/completions")
       ("Bearer " +++ OpenAIAPIKey config) (OpenAIModel config)
       [Message.mk "system"
          [ChatContent.mk "text" (SystemPrompt config) None]]].
Proof.
  intros Hroot Hgt Hfit.
  destruct (processNotification_completions remote config fuel notif w)
    as (stack & t1 & w1 & msgs & t2 & w2 & E1 & E2 & ->).
  assert (Hstack : stack = []).
  { revert E1. unfold buildConversationStack, bind.
    assert (Hloop : forall n,
               ancestorsLoop remote config n [Notification.Status notif]
                 (Notification.Status notif) w
               = (Ret [Notification.Status notif], [], w)).
    { intros n. destruct n; cbn [ancestorsLoop]; rewrite Hroot;
        rewrite andb_false_r; reflexivity. }
    rewrite Hloop. cbn [ret]. intros E. injection E as <- _ _.
    apply (trimLoop_oversize_oldest config [] _ Hgt Hfit). }
  subst stack. cbn in E2. injection E2 as <- _ _. reflexivity.
Qed.

Lemma processNotification_oversize_mention_witness :
  completions (trace (processNotification Scenario.no_service
                        Scenario.trim_config 0
                        (Notification.mk "mention" Scenario.long_mention)
                        0%nat))
  = [Request.mk "https://api.openai.com/v1/chat/completions" "Bearer key"
       "gpt-4o-mini"
       [Message.mk "system"
          [ChatContent.mk "text" "You are a helpful bot." None]]].
Proof.
  apply (processNotification_oversize_mention Scenario.no_service
           Scenario.trim_config 0
           (Notification.mk "mention" Scenario.long_mention) 0%nat).
  - reflexivity.
  - apply Z.ltb_lt. reflexivity.
  - apply Z.leb_le. reflexivity.
Defined.

(** ** Configuration fields the pipeline does not read *)

Lemma foldM_ext {W A B} (f g : A -> B -> M W A) l :
  (forall a b w, f a b w = g a b w) ->
  forall a w, foldM f l a w = foldM g l a w.
Proof.
  intros Hfg. induction l as [|b l IH]; intros a w; [reflexivity|].
  cbn [foldM]. unfold bind. rewrite Hfg.
  destruct (g a b w) as [[[a'| |] t] w1]; try reflexivity.
  now rewrite IH.
Qed.

Section Unused.
Context {W : Type}.
Variable remote : Remote W.
Variables c c' : Config.
Hypothesis Hsame : same_pipeline_config c c'.

Lemma trimStackToMaxChar_same stack :
  trimStackToMaxChar c stack = trimStackToMaxChar c' stack.
Proof.
  destruct Hsame as (_ & _ & _ & _ & _ & _ & _ & Hchar & _).
  unfold trimStackToMaxChar. generalize 0.
  induction (List.length stack) as [|n IH]; intros total; [reflexivity|].
  cbn [trimLoop]. rewrite Hchar.
  destruct (nth_error stack n); [|reflexivity].
  destruct (_ >? _); [reflexivity | apply IH].
Qed.

Lemma ancestorsLoop_same fuel :
  forall stack currentStatus w,
    ancestorsLoop remote c fuel stack currentStatus w
    = ancestorsLoop remote c' fuel stack currentStatus w.
Proof.
  destruct Hsame as (_ & _ & _ & _ & _ & _ & Hcount & _).
  induction fuel as [|fuel IH]; intros stack cur w; cbn [ancestorsLoop];
    rewrite Hcount; destruct (_ && _); try reflexivity.
  unfold bind, callStatusGet.
  destruct (StatusGet remote _ w) as [[payload|] w1]; [|reflexivity].
  now rewrite IH.
Qed.

Lemma buildConversationStack_same status w :
  buildConversationStack remote c status w
  = buildConversationStack remote c' status w.
Proof.
  destruct Hsame as (_ & _ & _ & _ & _ & _ & Hcount & _).
  unfold buildConversationStack, bind.
  rewrite Hcount, ancestorsLoop_same.
  destruct (ancestorsLoop remote c' _ _ _ w) as [[[stack| |] t] w1];
    try reflexivity.
  cbn. now rewrite trimStackToMaxChar_same.
Qed.

Lemma buildChatHistory_same stack w :
  buildChatHistory remote c stack w = buildChatHistory remote c' stack w.
Proof.
  destruct Hsame as (_ & _ & _ & Hdomain & Hname & _ & _ & _ & Hprompt).
  unfold buildChatHistory, systemMessage. rewrite Hprompt.
  apply foldM_ext. intros hist slot w0.
  unfold statusStep, botAcct. now rewrite Hdomain, Hname.
Qed.

Lemma callGPT_same chatHistory w :
  callGPT remote c chatHistory w = callGPT remote c' chatHistory w.
Proof.
  destruct Hsame as (Hkey & Hurl & Hmodel & _).
  unfold callGPT. now rewrite Hkey, Hurl, Hmodel.
Qed.

Lemma replyToStatus_same fuel :
  forall status response w,
    replyToStatus remote c fuel status response w
    = replyToStatus remote c' fuel status response w.
Proof.
  destruct Hsame as (_ & _ & _ & _ & _ & Hmax & _).
  induction fuel as [|fuel IH]; intros status response w;
    rewrite !replyToStatus_unfold; cbv zeta; rewrite Hmax;
    destruct (_ >? _); try reflexivity;
    destruct (_ <? _); try reflexivity;
    destruct (StatusCreate remote _ w) as [[payload|] w1]; try reflexivity;
    destruct (_ =? _)%string; try reflexivity.
  now rewrite IH.
Qed.

Lemma processNotification_same fuel notif w :
  processNotification remote c fuel notif w
  = processNotification remote c' fuel notif w.
Proof.
  unfold processNotification, bind.
  rewrite buildConversationStack_same.
  destruct (buildConversationStack remote c' _ w) as [[[stack| |] t1] w1];
    try reflexivity.
  rewrite buildChatHistory_same.
  destruct (buildChatHistory remote c' stack w1) as [[[hist| |] t2] w2];
    try reflexivity.
  rewrite callGPT_same.
  destruct (callGPT remote c' hist w2) as [[[response| |] t3] w3];
    try reflexivity.
  destruct (response =? "")%string; [reflexivity|].
  now rewrite replyToStatus_same.
Qed.
End Unused.

(** X19.  Processing a mention never reads [OpenAIModelExternal],
    [ClientKey], [ClientSecret] or [AccessToken]: two configurations that
    agree on the other fields give the same run, call for call.  In
    particular the model is [OpenAIModel] for every author. *)
Theorem processNotification_ignores_the_external_model
        {W} (remote : Remote W) (c c' : Config) fuel notif w :
  same_pipeline_config c c' ->
  processNotification remote c fuel notif w
  = processNotification remote c' fuel notif w.
Proof. intros H. now apply processNotification_same. Qed.

Lemma processNotification_ignores_the_external_model_witness :
  processNotification Scenario.failing_service Scenario.base_config 0
    Scenario.notification 0%nat
  = processNotification Scenario.failing_service
      {| OpenAIAPIKey := "key";
         OpenAIAPIURL := "https://api.openai.com/v1";
         OpenAIModel := "gpt-4o-mini";
         OpenAIModelExternal := "gpt-4o";
         FediDomain := "example.social";
         ClientKey := "client";
         ClientSecret := "secret";
         AccessToken := "other";
         BotAccountName := "gptbot";
         MaxChar := 450;
         MaxHistoryCount := 6;
         MaxHistoryChar := 5000;
         SystemPrompt := "You are a helpful bot." |}
      0 Scenario.notification 0%nat.
Proof.
  apply processNotification_ignores_the_external_model.
  repeat split.
Defined.

(** ** Robustness of one mention *)



(** ** One poll cycle *)

Lemma bind_ret_l {W A B} (a : A) (k : A -> M W B) w :
  bind (ret a) k w = k a w.
Proof. unfold bind, ret. now destruct (k a w) as [[o t] w']. Qed.

Lemma mentions_only_loop {W} (remote : Remote W) config fuel notifs :
  forall w,
    foldM (notificationStep remote config fuel) notifs tt w
    = foldM (notificationStep remote config fuel)
        (filter is_mention notifs) tt w.
Proof.
  induction notifs as [|notif notifs IH]; intros w; [reflexivity|].
  cbn [filter foldM]. unfold is_mention at 1, notificationStep at 1.
  destruct (Notification.Type_ notif =? "mention")%string eqn:E; cbn [negb].
  - cbn [foldM]. unfold notificationStep at 2. rewrite E. cbn [negb].
    unfold bind.
    destruct (processNotification remote config fuel notif w)
      as [[[[]| |] t] w1]; try reflexivity.
    now rewrite IH.
  - rewrite bind_ret_l. apply IH.
Qed.

(** X21.  A poll cycle ignores every notification that is not a mention:
    removing them from the inbox changes neither the calls made nor the
    result. *)
Theorem processNotifications_only_mentions
        {W} (remote : Remote W) (inbox : Inbox W) config fuel w :
  processNotifications remote (only_mentions inbox) config fuel w
  = processNotifications remote inbox config fuel w.
Proof.
  unfold processNotifications, only_mentions.
  cbn [Notifications ClearNotifications].
  destruct (Notifications inbox w) as [[payload|] w1]; [|reflexivity].
  cbn [option_map]. unfold bind.
  rewrite <- mentions_only_loop.
  reflexivity.
Qed.

(** ** Configuration loading *)

Lemma digits_value_acc d :
  forall p,
    digits_value (DecimalString.NilEmpty.string_of_uint d) (Z.pos p)
    = Some (Z.pos (Pos.of_uint_acc d p)).
Proof.
  induction d as [|d IH|d IH|d IH|d IH|d IH|d IH|d IH|d IH|d IH|d IH];
    intros p; [reflexivity|..];
    cbn [DecimalString.NilEmpty.string_of_uint digits_value Pos.of_uint_acc];
    match goal with
    | |- context [digit_of ?c] =>
        let v := eval vm_compute in (digit_of c) in
        change (digit_of c) with v
    end; cbv iota beta;
    rewrite <- IH; f_equal; lia.
Qed.

Lemma digits_value_uint d :
  digits_value (DecimalString.NilEmpty.string_of_uint d) 0
  = Some (Z.of_N (Pos.of_uint d)).
Proof.
  induction d as [|d IH|d IH|d IH|d IH|d IH|d IH|d IH|d IH|d IH|d IH];
    [reflexivity|..];
    cbn [DecimalString.NilEmpty.string_of_uint digits_value Pos.of_uint];
    match goal with
    | |- context [digit_of ?c] =>
        let v := eval vm_compute in (digit_of c) in
        change (digit_of c) with v
    end; cbv iota beta;
    [exact IH | cbn [Z.of_N]; rewrite <- digits_value_acc; reflexivity ..].
Qed.

Lemma string_of_uint_nonempty d :
  d <> Decimal.Nil -> DecimalString.NilEmpty.string_of_uint d <> "".
Proof. destruct d; [congruence | discriminate ..]. Qed.

Lemma strconv_Atoi_unsigned c rest :
  digit_of c <> None ->
  strconv_Atoi (String c rest)
  = match digits_value (String c rest) 0 with
    | Some n => if (int_min <=? n) && (n <=? int_max) then Some n else None
    | None => None
    end.
Proof.
  destruct c as [[] [] [] [] [] [] [] []]; intros H;
    try reflexivity; exfalso; apply H; reflexivity.
Qed.

Lemma strconv_Atoi_negative c rest :
  strconv_Atoi (String "-" (String c rest))
  = match digits_value (String c rest) 0 with
    | Some n =>
        if (int_min <=? - n) && (- n <=? int_max) then Some (- n) else None
    | None => None
    end.
Proof. reflexivity. Qed.

Lemma strconv_Atoi_decimal n :
  int_min <= n <= int_max -> strconv_Atoi (decimal n) = Some n.
Proof.
  intros Hrange. unfold decimal. destruct n as [|p|p]; [reflexivity| |];
    cbn [Z.to_int DecimalString.NilZero.string_of_int];
    pose proof (DecimalPos.Unsigned.to_uint_nonnil p) as Hnil;
    pose proof (DecimalPos.Unsigned.of_to p) as Hp;
    pose proof (digits_value_uint (Pos.to_uint p)) as Hv;
    pose proof (string_of_uint_nonempty _ Hnil) as Hne;
    rewrite Hp in Hv; cbn [Z.of_N] in Hv;
    (replace (DecimalString.NilZero.string_of_uint (Pos.to_uint p))
       with (DecimalString.NilEmpty.string_of_uint (Pos.to_uint p))
       by (destruct (Pos.to_uint p); [congruence | reflexivity ..]));
    destruct (DecimalString.NilEmpty.string_of_uint (Pos.to_uint p))
      as [|c rest] eqn:Hs; try congruence.
  - rewrite strconv_Atoi_unsigned, Hv.
    + replace ((int_min <=? Z.pos p) && (Z.pos p <=? int_max)) with true;
        [reflexivity|].
      symmetry. apply andb_true_iff. split; apply Z.leb_le; lia.
    + intros Hd. cbn [digits_value] in Hv. rewrite Hd in Hv. discriminate.
  - rewrite strconv_Atoi_negative, Hv.
    replace ((int_min <=? - Z.pos p) && (- Z.pos p <=? int_max)) with true;
      [reflexivity|].
    symmetry. apply andb_true_iff. split; apply Z.leb_le; lia.
Qed.

Lemma getEnvAsInt_decimal os_Getenv key defaultValue n :
  int_min <= n <= int_max ->
  os_Getenv key = decimal n ->
  getEnvAsInt os_Getenv key defaultValue = n.
Proof.
  intros Hrange Hkey. unfold getEnvAsInt, getEnv. rewrite Hkey.
  destruct (decimal n =? "")%string eqn:E.
  - apply String.eqb_eq in E. pose proof (strconv_Atoi_decimal n Hrange) as H.
    rewrite E in H. discriminate.
  - now rewrite strconv_Atoi_decimal.
Qed.

(** X22.  The three limits are read back exactly as written: any
    integers of the [int] range given in decimal for [MAX_CHAR],
    [MAX_HISTORY_COUNT] and [MAX_HISTORY_CHAR] become the configuration,
    zero and negative values included; nothing validates them. *)
Theorem loadConfig_reads_the_limits os_Getenv a b c :
  int_min <= a <= int_max ->
  int_min <= b <= int_max ->
  int_min <= c <= int_max ->
  os_Getenv "MAX_CHAR" = decimal a ->
  os_Getenv "MAX_HISTORY_COUNT" = decimal b ->
  os_Getenv "MAX_HISTORY_CHAR" = decimal c ->
  MaxChar (loadConfig os_Getenv) = a
  /\ MaxHistoryCount (loadConfig os_Getenv) = b
  /\ MaxHistoryChar (loadConfig os_Getenv) = c.
Proof.
  intros Ha Hb Hc Ea Eb Ec. cbn [loadConfig MaxChar MaxHistoryCount MaxHistoryChar].
  repeat split; apply getEnvAsInt_decimal; assumption.
Qed.

Lemma loadConfig_reads_the_limits_witness :
  MaxChar (loadConfig limits_env) = 0
  /\ MaxHistoryCount (loadConfig limits_env) = -3
  /\ MaxHistoryChar (loadConfig limits_env) = 12.
Proof.
  apply (loadConfig_reads_the_limits limits_env 0 (-3) 12);
    try reflexivity; split; apply Z.leb_le; reflexivity.
Defined.
